(** * fun-hub-backend: the room registry and the socket event handlers

    A shallow embedding of [src/services/gameRoomService.ts] (class
    [GameRoomService]) and of [src/config/socket.ts] (the handlers installed
    by [configureSocket]), followed by theorems about the room/session state
    machine.  The room listing of [server.ts] and the handlers of the
    earlier JavaScript server are embedded as well, and compared with them.

    Conventions of the embedding.
    - A field of an event's [data] object is a [JsStr]: a string or
      [undefined].  [truthy] is JavaScript truthiness on such a value and
      [str] is its rendering inside a template literal.  An event sent
      with no data object is [no_payload]; its handler throws when it
      destructures [data] ([handle]).
    - A JavaScript [Map] is an insertion-ordered association list
      ([JsMap]), a [Set] an insertion-ordered duplicate-free list ([JsSet]).
    - The handlers mutate two stores: the registry of [GameRoomService] and
      the group membership kept by the transport ([socket.rooms]).  Both
      are threaded explicitly through every handler as a [World].
    - What a handler emits is returned as a list of [Emission]s, in program
      order.  [receivers] resolves the target of an emission against the
      group membership of the transport.
    - [new Date()] is the clock reading [now] that accompanies the event. *)

From Stdlib Require Import String List Bool Arith Lia.
Import ListNotations.

Local Open Scope string_scope.
Local Open Scope list_scope.

Infix "+s+" := String.append (at level 60, right associativity).

(* ------------------------------------------------------------------ *)
(** ** JavaScript values and containers *)

Module JS.

Definition JsStr := option string.

(** [!v] is [negb (truthy v)]: [undefined] and the empty string are falsy. *)
Definition truthy (v : JsStr) : bool :=
  match v with
  | Some s => negb (s =? "")
  | None => false
  end.

(** [`${v}`] *)
Definition str (v : JsStr) : string :=
  match v with
  | Some s => s
  | None => "undefined"
  end.

Section Arrays.
Context {A : Type}.

(** [Array.prototype.findIndex]; [None] stands for [-1]. *)
Fixpoint findIndex (f : A -> bool) (l : list A) : option nat :=
  match l with
  | [] => None
  | x :: l' =>
      if f x then Some 0
      else match findIndex f l' with
           | Some i => Some (S i)
           | None => None
           end
  end.

(** [l.splice(index, 1)]: the array that remains. *)
Definition splice1 (index : nat) (l : list A) : list A :=
  firstn index l ++ skipn (S index) l.
End Arrays.

Section Maps.
Context {V : Type}.

Definition JsMap := list (string * V).

Fixpoint map_get (k : string) (m : JsMap) : option V :=
  match m with
  | [] => None
  | (k', v) :: m' => if k' =? k then Some v else map_get k m'
  end.

Definition map_has (k : string) (m : JsMap) : bool :=
  match map_get k m with
  | Some _ => true
  | None => false
  end.

(** [m.set(k, v)]: an existing key keeps its place, a new one goes last. *)
Fixpoint map_set (k : string) (v : V) (m : JsMap) : JsMap :=
  match m with
  | [] => [(k, v)]
  | (k', v') :: m' =>
      if k' =? k then (k, v) :: m' else (k', v') :: map_set k v m'
  end.

(** [m.delete(k)]: the map that remains; the boolean result of the
    JavaScript method is [map_has k m]. *)
Fixpoint map_delete (k : string) (m : JsMap) : JsMap :=
  match m with
  | [] => []
  | (k', v') :: m' =>
      if k' =? k then m' else (k', v') :: map_delete k m'
  end.

Definition map_keys (m : JsMap) : list string := map fst m.
Definition map_values (m : JsMap) : list V := map snd m.
End Maps.
Arguments JsMap V : clear implicits.

Definition JsSet := list string.

Definition set_has (x : string) (s : JsSet) : bool :=
  existsb (String.eqb x) s.

Definition set_add (x : string) (s : JsSet) : JsSet :=
  if set_has x s then s else s ++ [x].

Definition set_delete (x : string) (s : JsSet) : JsSet :=
  filter (fun y => negb (y =? x)) s.

End JS.
Import JS.

(* ------------------------------------------------------------------ *)
(** ** [GameRoomService] *)

Definition Time := nat.

Record Player := mkPlayer {
  socketId : string;
  name : string;
  joinedAt : Time
}.

Record GameRoom := mkGameRoom {
  id : string;
  players : list Player;
  gameState : option string;
  createdAt : Time
}.

Module GameRoomService.

(** [private rooms: Map<string, GameRoom>] *)
Definition Rooms := JsMap GameRoom.

Definition empty : Rooms := [].

Definition createRoom (now : Time) (roomId : string) (rooms : Rooms)
  : GameRoom * Rooms :=
  let room := mkGameRoom roomId [] None now in
  (room, map_set roomId room rooms).

Definition deleteRoom (roomId : string) (rooms : Rooms) : bool * Rooms :=
  (map_has roomId rooms, map_delete roomId rooms).

Definition roomExists (roomId : string) (rooms : Rooms) : bool :=
  map_has roomId rooms.

Definition getRoom (roomId : string) (rooms : Rooms) : option GameRoom :=
  map_get roomId rooms.

Definition getAllRooms (rooms : Rooms) : list GameRoom :=
  map_values rooms.

(** [room.players.push(player)] mutates the room held by the map. *)
Definition addPlayerToRoom (roomId : string) (player : Player) (rooms : Rooms)
  : bool * Rooms :=
  match map_get roomId rooms with
  | None => (false, rooms)
  | Some room =>
      (true,
       map_set roomId
         (mkGameRoom (id room) (players room ++ [player])
                     (gameState room) (createdAt room))
         rooms)
  end.

Definition removePlayerFromRoom (roomId : string) (sid : string) (rooms : Rooms)
  : bool * Rooms :=
  match map_get roomId rooms with
  | None => (false, rooms)
  | Some room =>
      match findIndex (fun p => socketId p =? sid) (players room) with
      | None => (false, rooms)
      | Some index =>
          (true,
           map_set roomId
             (mkGameRoom (id room) (splice1 index (players room))
                         (gameState room) (createdAt room))
             rooms)
      end
  end.

Definition getRoomPlayers (roomId : string) (rooms : Rooms) : list Player :=
  match map_get roomId rooms with
  | Some room => players room
  | None => []
  end.

Definition getPlayerCount (roomId : string) (rooms : Rooms) : nat :=
  match map_get roomId rooms with
  | Some room => length (players room)
  | None => 0
  end.

Definition updateGameState (roomId : string) (state : option string)
  (rooms : Rooms) : bool * Rooms :=
  match map_get roomId rooms with
  | None => (false, rooms)
  | Some room =>
      (true,
       map_set roomId
         (mkGameRoom (id room) (players room) state (createdAt room))
         rooms)
  end.

Definition getGameState (roomId : string) (rooms : Rooms) : option string :=
  match map_get roomId rooms with
  | Some room => gameState room
  | None => None
  end.

(** An element of [stats.rooms]: [{ id, players, createdAt }], where
    [players] is a count. *)
Record RoomStat := mkRoomStat {
  stat_id : string;
  stat_players : nat;
  stat_createdAt : Time
}.

Record RoomStats := mkRoomStats {
  totalRooms : nat;
  totalPlayers : nat;
  stat_rooms : list RoomStat
}.

(** [totalPlayers] starts at 0 and is then assigned the [reduce] over
    [stats.rooms]. *)
Definition getRoomStats (rooms : Rooms) : RoomStats :=
  let stats_rooms :=
    map (fun room =>
           mkRoomStat (id room) (length (players room)) (createdAt room))
        (map_values rooms) in
  mkRoomStats (length rooms)
              (fold_left (fun sum room => sum + stat_players room)
                         stats_rooms 0)
              stats_rooms.

End GameRoomService.
Import GameRoomService.

(* ------------------------------------------------------------------ *)
(** ** The transport: group membership and emissions *)

(** The two stores the handlers act on. [groups] maps a connected socket
    to [socket.rooms]; a socket that is not connected has no entry. *)
Record World := mkWorld {
  registry : Rooms;
  groups : JsMap JsSet
}.

Definition init : World := mkWorld GameRoomService.empty [].

Definition with_registry (w : World) (rooms : Rooms) : World :=
  mkWorld rooms (groups w).

Module Transport.

(** [socket.rooms] *)
Definition socket_rooms (sid : string) (w : World) : JsSet :=
  match map_get sid (groups w) with
  | Some s => s
  | None => []
  end.

(** A new socket is put in the group that bears its own id. *)
Definition socket_connect (sid : string) (w : World) : World :=
  mkWorld (registry w) (map_set sid [sid] (groups w)).

(** [socket.join(room)] *)
Definition socket_join (sid room : string) (w : World) : World :=
  mkWorld (registry w)
          (map_set sid (set_add room (socket_rooms sid w)) (groups w)).

(** [socket.leave(room)] *)
Definition socket_leave (sid room : string) (w : World) : World :=
  match map_get sid (groups w) with
  | Some s => mkWorld (registry w) (map_set sid (set_delete room s) (groups w))
  | None => w
  end.

(** A closed socket has left every group when its [disconnect] handler
    runs. *)
Definition socket_close (sid : string) (w : World) : World :=
  mkWorld (registry w) (map_delete sid (groups w)).

Inductive Target :=
| socket_emit (sid : string)           (* socket.emit(...) *)
| io_to (room : string)                (* io.to(room).emit(...) *)
| socket_to (sid room : string).       (* socket.to(room).emit(...) *)

(** The sockets in group [room], in connection order. *)
Definition group_members (room : string) (w : World) : list string :=
  map fst (filter (fun e => set_has room (snd e)) (groups w)).

Definition receivers (w : World) (t : Target) : list string :=
  match t with
  | socket_emit sid => if map_has sid (groups w) then [sid] else []
  | io_to room => group_members room w
  | socket_to sid room =>
      filter (fun s => negb (s =? sid)) (group_members room w)
  end.

End Transport.
Import Transport.

Record SymbolPlayer := mkSymbolPlayer {
  sp_name : string;
  sp_socketId : string;
  sp_symbol : string
}.

(** The [board] field of [game_move]: an array of cells, or [undefined]. *)
Definition Board := list (option string).

Definition truthy_board (board : option Board) : bool :=
  match board with
  | Some _ => true
  | None => false
  end.

Inductive Payload :=
| connection_info (status sid message : string)
| status_error (message : string)
| status_success (message : string)
| join_success (roomId : string) (players : list Player) (message : string)
| roster_update (roomId : string) (players : list Player) (message : string)
                (playerCount : nat)
| chat (senderId : string) (senderName : JsStr) (content : string)
       (timestamp : Time) (roomId : string)
| game_start_data (gameType : string) (players : list SymbolPlayer)
                  (playerSymbol : string)
| game_move_data (board : option Board) (playerSymbol playerName : JsStr)
| game_reset_data (playerName : JsStr).

Record Emission := emit {
  target : Target;
  event : string;
  payload : Payload
}.


(* ------------------------------------------------------------------ *)
(** ** The handlers of [configureSocket] *)

(** The events whose handler takes [data] and begins by destructuring
    it. *)
Inductive EventName :=
| name_join_room
| name_send_message
| name_leave_room
| name_game_start
| name_game_move
| name_game_reset.

(** The events a client can send on its socket.  An event sent with a
    data object is given by the fields its handler destructures from
    [data] (a field the object lacks is [undefined]); [no_payload] is an
    event sent with no argument, for which [data] itself is [undefined];
    [disconnect] is raised by the transport when the connection closes. *)
Inductive ClientEvent :=
| join_room (roomId playerName : JsStr)
| send_message (roomId playerName message : JsStr)
| leave_room (roomId playerName : JsStr)
| game_start (roomId playerName gameType : JsStr)
| game_move (roomId playerName : JsStr) (board : option Board)
            (playerSymbol : JsStr)
| game_reset (roomId playerName : JsStr)
| disconnect
| no_payload (name : EventName).

Inductive JsError :=
| TypeError.

(** How the call of a handler ends: it returns, having made its mutations
    and emissions, or it throws. *)
Inductive Completion (R : Type) :=
| returned (result : R)
| threw (error : JsError).
Arguments returned {R} result.
Arguments threw {R} error.

Inductive Input :=
| connection (sid : string)
| received (sid : string) (now : Time) (ev : ClientEvent).

Module Handlers.

Definition Result := (World * list Emission)%type.

(** [io.on('connection', ...)] *)
Definition on_connection (sid : string) (w : World) : Result :=
  (socket_connect sid w,
   [emit (socket_emit sid) "connection_response"
         (connection_info "connected" sid
                          "Successfully connected to gaming server")]).

(** The block under [// Leave previous room if exists]. *)
Definition leave_previous_room (sid : string) (w : World) : World :=
  if (1 <? length (socket_rooms sid w))%nat then
    match find (fun room => negb (room =? sid)) (socket_rooms sid w) with
    | Some previousRoom => socket_leave sid previousRoom w
    | None => w
    end
  else w.

Definition on_join_room (sid : string) (now : Time)
  (roomId playerName : JsStr) (w : World) : Result :=
  if negb (truthy roomId) || negb (truthy playerName) then
    (w, [emit (socket_emit sid) "join_room_response"
              (status_error "Room ID and player name are required")])
  else
    let w1 := leave_previous_room sid w in
    let w2 :=
      if negb (roomExists (str roomId) (registry w1)) then
        with_registry w1 (snd (createRoom now (str roomId) (registry w1)))
      else w1 in
    let w3 := socket_join sid (str roomId) w2 in
    let w4 :=
      with_registry w3
        (snd (addPlayerToRoom (str roomId)
                (mkPlayer sid (str playerName) now) (registry w3))) in
    let players := getRoomPlayers (str roomId) (registry w4) in
    (w4,
     [emit (io_to (str roomId)) "player_joined"
           (roster_update (str roomId) players
              (str playerName +s+ " has joined the room") (length players));
      emit (socket_emit sid) "join_room_response"
           (join_success (str roomId) players
              ("You have joined room " +s+ str roomId))]).

Definition on_send_message (sid : string) (now : Time)
  (roomId playerName message : JsStr) (w : World) : Result :=
  if negb (truthy roomId) || negb (truthy message) then
    (w, [emit (socket_emit sid) "message_response"
              (status_error "Room ID and message content are required")])
  else if negb (roomExists (str roomId) (registry w)) then
    (w, [emit (socket_emit sid) "message_response"
              (status_error ("Room " +s+ str roomId +s+ " does not exist"))])
  else
    (w, [emit (io_to (str roomId)) "receive_message"
              (chat sid playerName (str message) now (str roomId))]).

Definition on_leave_room (sid : string)
  (roomId playerName : JsStr) (w : World) : Result :=
  if negb (truthy roomId) then
    (w, [emit (socket_emit sid) "leave_room_response"
              (status_error "Room ID is required")])
  else if negb (roomExists (str roomId) (registry w)) then
    (w, [emit (socket_emit sid) "leave_room_response"
              (status_error ("Room " +s+ str roomId +s+ " does not exist"))])
  else
    let w1 := socket_leave sid (str roomId) w in
    let w2 :=
      with_registry w1
        (snd (removePlayerFromRoom (str roomId) sid (registry w1))) in
    let players := getRoomPlayers (str roomId) (registry w2) in
    let '(w3, broadcast) :=
      if (0 <? length players)%nat then
        (w2,
         [emit (io_to (str roomId)) "player_left"
               (roster_update (str roomId) players
                  (str playerName +s+ " has left the room") (length players))])
      else
        (with_registry w2 (snd (deleteRoom (str roomId) (registry w2))), [])
    in
    (w3,
     broadcast ++
     [emit (socket_emit sid) "leave_room_response"
           (status_success ("You have left room " +s+ str roomId))]).

(** [players.map((p, idx) => ...)], counting from [idx]. *)
Fixpoint with_symbols (idx : nat) (l : list Player) : list SymbolPlayer :=
  match l with
  | [] => []
  | p :: l' =>
      mkSymbolPlayer (name p) (socketId p)
                     (if Nat.eqb idx 0 then "X" else "O")
      :: with_symbols (S idx) l'
  end.

(** [players[0]] and [players[1]] are read after the length test, so the
    last branch of the [match] is never taken. *)
Definition on_game_start (sid : string)
  (roomId playerName gameType : JsStr) (w : World) : Result :=
  if negb (truthy roomId) || negb (truthy gameType) then (w, [])
  else
    let players := getRoomPlayers (str roomId) (registry w) in
    if (length players <? 2)%nat then (w, [])
    else
      let gameStartData := with_symbols 0 players in
      match nth_error players 0, nth_error players 1 with
      | Some p0, Some p1 =>
          (w,
           [emit (io_to (socketId p0)) "game_start"
                 (game_start_data (str gameType) gameStartData "X");
            emit (io_to (socketId p1)) "game_start"
                 (game_start_data (str gameType) gameStartData "O")])
      | _, _ => (w, [])
      end.

Definition on_game_move (sid : string)
  (roomId playerName : JsStr) (board : option Board) (playerSymbol : JsStr)
  (w : World) : Result :=
  if negb (truthy roomId) || negb (truthy_board board) then (w, [])
  else
    (w, [emit (socket_to sid (str roomId)) "game_move"
              (game_move_data board playerSymbol playerName)]).

Definition on_game_reset (sid : string)
  (roomId playerName : JsStr) (w : World) : Result :=
  if negb (truthy roomId) then (w, [])
  else
    (w, [emit (socket_to sid (str roomId)) "game_reset"
              (game_reset_data playerName)]).

(** The body of [allRooms.forEach]: [room] is an element of the array
    returned by [getAllRooms], an object shared with the registry, which
    the body reaches through [room.id].  No earlier iteration has touched
    that object when its turn comes ([disconnect_fold_registry] below), so
    [room.players] is read here as it was when the array was made. *)
Definition disconnect_room (sid : string) (acc : Result) (room : GameRoom)
  : Result :=
  let '(w, out) := acc in
  match find (fun p => socketId p =? sid) (players room) with
  | None => (w, out)
  | Some player =>
      let w1 :=
        with_registry w
          (snd (removePlayerFromRoom (id room) sid (registry w))) in
      let remainingPlayers := getRoomPlayers (id room) (registry w1) in
      if (0 <? length remainingPlayers)%nat then
        (w1,
         out ++
         [emit (io_to (id room)) "player_left"
               (roster_update (id room) remainingPlayers
                  (name player +s+ " has left the room")
                  (length remainingPlayers))])
      else
        (with_registry w1 (snd (deleteRoom (id room) (registry w1))), out)
  end.

Definition on_disconnect (sid : string) (w : World) : Result :=
  let w0 := socket_close sid w in
  fold_left (disconnect_room sid) (getAllRooms (registry w0)) (w0, []).

End Handlers.
Import Handlers.

(** The call of the handler of one event.  Each handler of a client
    event is [(data) => { const { ... } = data; ... }]: with a data object
    the body runs on the destructured fields; with [data] undefined the
    destructuring throws a TypeError before the first statement of the
    body, so before any check, mutation or emission. *)
Definition handle (w : World) (i : Input)
  : Completion (World * list Emission) :=
  match i with
  | connection sid => returned (on_connection sid w)
  | received sid now ev =>
      match ev with
      | join_room roomId playerName =>
          returned (on_join_room sid now roomId playerName w)
      | send_message roomId playerName message =>
          returned (on_send_message sid now roomId playerName message w)
      | leave_room roomId playerName =>
          returned (on_leave_room sid roomId playerName w)
      | game_start roomId playerName gameType =>
          returned (on_game_start sid roomId playerName gameType w)
      | game_move roomId playerName board playerSymbol =>
          returned (on_game_move sid roomId playerName board playerSymbol w)
      | game_reset roomId playerName =>
          returned (on_game_reset sid roomId playerName w)
      | disconnect => returned (on_disconnect sid w)
      | no_payload _ => threw TypeError
      end
  end.

(** One handled event: the world the handler leaves and what it emitted.
    A handler that throws leaves the world as it found it and has emitted
    nothing.  What the transport and the process do with the exception is
    outside the handlers; [run] goes on from the world that is left. *)
Definition step (w : World) (i : Input) : World * list Emission :=
  match handle w i with
  | returned result => result
  | threw _ => (w, [])
  end.

(** The world after a sequence of handled events. *)
Fixpoint run (w : World) (tr : list Input) : World :=
  match tr with
  | [] => w
  | i :: tr' => run (fst (step w i)) tr'
  end.

(** The connections listed in the [players] of room [roomId]. *)
Definition room_sockets (roomId : string) (w : World) : list string :=
  map socketId (getRoomPlayers roomId (registry w)).

(** The ids of the rooms whose [players] list has an entry of [sid]. *)
Definition rooms_of (sid : string) (w : World) : list string :=
  map fst
    (filter (fun e => existsb (fun p => socketId p =? sid) (players (snd e)))
            (registry w)).


(* ------------------------------------------------------------------ *)
(** ** Vocabulary of the statements *)

(** What holds of every room a handler leaves in the registry: it is
    stored under its own id, it has a player, and its id is a truthy
    string. *)
Definition room_ok (k : string) (room : GameRoom) : Prop :=
  id room = k /\ players room <> [] /\ k <> "".

Definition registry_ok (rooms : Rooms) : Prop :=
  NoDup (map_keys rooms) /\
  forall k room, map_get k rooms = Some room -> room_ok k room.

(** The room that remains once the first entry of [sid] is spliced out of
    [players]; [None] when nothing remains. *)
Definition without_player (sid : string) (room : GameRoom) : option GameRoom :=
  match findIndex (fun p => socketId p =? sid) (players room) with
  | None => Some room
  | Some index =>
      match splice1 index (players room) with
      | [] => None
      | rest =>
          Some (mkGameRoom (id room) rest (gameState room) (createdAt room))
      end
  end.

(** The wording of the specification for rooms of any size: every player
    of the room is addressed a [game_start] payload that carries the roster
    and the symbol the roster gives that player. *)
Definition every_player_is_sent_game_start
  (roomId gameType : string) (w : World) (out : list Emission) : Prop :=
  forall p, In p (getRoomPlayers roomId (registry w)) ->
    exists symbol,
      In (mkSymbolPlayer (name p) (socketId p) symbol)
         (with_symbols 0 (getRoomPlayers roomId (registry w))) /\
      In (emit (io_to (socketId p)) "game_start"
               (game_start_data gameType
                  (with_symbols 0 (getRoomPlayers roomId (registry w)))
                  symbol))
         out.

(** Ann, Bob and Cy are in room R1, joined in that order. *)
Definition three_in_R1 : World :=
  run init [connection "ann"; connection "bob"; connection "cy";
            received "ann" 1 (join_room (Some "R1") (Some "Ann"));
            received "bob" 2 (join_room (Some "R1") (Some "Bob"));
            received "cy" 3 (join_room (Some "R1") (Some "Cy"))].

(** Connection s1 joins room A, then room B. *)
Definition joined_A_then_B : World :=
  run init [connection "s1";
            received "s1" 1 (join_room (Some "A") (Some "Ann"));
            received "s1" 2 (join_room (Some "B") (Some "Ann"))].

(** Connection s1 joins room A twice. *)
Definition joined_A_twice : World :=
  run init [connection "s1";
            received "s1" 1 (join_room (Some "A") (Some "Ann"));
            received "s1" 2 (join_room (Some "A") (Some "Ann"))].

(** How many entries of [sid] a players list holds. *)
Definition entries (sid : string) (l : list Player) : nat :=
  length (filter (fun p => socketId p =? sid) l).

(* ------------------------------------------------------------------ *)
(** ** The room listing of [server.ts] *)

(** An element of [rooms] in the body of [GET /api/rooms]. *)
Record ApiPlayer := mkApiPlayer {
  api_name : string;
  api_socketId : string
}.

Record ApiRoom := mkApiRoom {
  api_id : string;
  api_playerCount : nat;
  api_players : list ApiPlayer;
  api_createdAt : Time
}.

Record ApiRooms := mkApiRooms {
  api_totalRooms : nat;
  api_rooms : list ApiRoom
}.

(** The body that [app.get('/api/rooms', ...)] sends. *)
Definition get_api_rooms (rooms : Rooms) : ApiRooms :=
  let all := getAllRooms rooms in
  mkApiRooms (length all)
    (map (fun room =>
            mkApiRoom (id room) (length (players room))
              (map (fun p => mkApiPlayer (name p) (socketId p)) (players room))
              (createdAt room))
         all).

(* ------------------------------------------------------------------ *)
(** ** More vocabulary *)

(** What holds of the group membership of every reachable world: a socket
    has one entry, and its [socket.rooms] is a set of at most two groups. *)
Definition groups_ok (g : JsMap JsSet) : Prop :=
  NoDup (map_keys g) /\
  Forall (fun e => NoDup (snd e) /\ length (snd e) <= 2) g.

(** [l] without its first entry of [sid]. *)
Fixpoint remove_first (sid : string) (l : list Player) : list Player :=
  match l with
  | [] => []
  | p :: l' => if socketId p =? sid then l' else p :: remove_first sid l'
  end.

(** What the closing of socket [sid] makes one room say: nothing when the
    room does not list [sid] or lists nobody else, and otherwise one
    [player_left] to the group of the room, named after the first entry of
    [sid] and carrying the entries that remain. *)
Definition player_left_notice (sid : string) (room : GameRoom)
  : list Emission :=
  match find (fun p => socketId p =? sid) (players room) with
  | None => []
  | Some player =>
      match remove_first sid (players room) with
      | [] => []
      | remaining =>
          [emit (io_to (id room)) "player_left"
                (roster_update (id room) remaining
                   (name player +s+ " has left the room")
                   (length remaining))]
      end
  end.

(** Every listed player, over all rooms. *)
Definition total_entries (rooms : Rooms) : nat :=
  list_sum (map (fun room => length (players room)) (getAllRooms rooms)).

(** Whoever is in the group of a room, other than the socket whose own id
    names that group, is listed in the players of the room. *)
Definition groups_listed (w : World) : Prop :=
  forall s set r,
    In (s, set) (groups w) -> In r set -> r <> s ->
    In s (room_sockets r w).

(* ------------------------------------------------------------------ *)
(** ** The earlier server: the same events on a bare [Map]

    The JavaScript server that precedes [socket.ts] keeps
    [const gameRooms = new Map()] itself instead of calling
    [GameRoomService]; its rooms have no [id] field.  It handles
    [join_room], [send_message], [disconnect] and [leave_room]. *)

Record LegacyRoom := mkLegacyRoom {
  legacy_players : list Player;
  legacy_gameState : option string;
  legacy_createdAt : Time
}.

Record LegacyWorld := mkLegacyWorld {
  gameRooms : JsMap LegacyRoom;
  legacy_groups : JsMap JsSet
}.

Module Legacy.

Definition Result := (LegacyWorld * list Emission)%type.

Definition rooms_of_socket (sid : string) (g : JsMap JsSet) : JsSet :=
  match map_get sid g with
  | Some s => s
  | None => []
  end.

Definition join (sid room : string) (g : JsMap JsSet) : JsMap JsSet :=
  map_set sid (set_add room (rooms_of_socket sid g)) g.

Definition leave (sid room : string) (g : JsMap JsSet) : JsMap JsSet :=
  match map_get sid g with
  | Some s => map_set sid (set_delete room s) g
  | None => g
  end.

Definition leave_previous (sid : string) (g : JsMap JsSet) : JsMap JsSet :=
  if (1 <? length (rooms_of_socket sid g))%nat then
    match find (fun room => negb (room =? sid)) (rooms_of_socket sid g) with
    | Some previousRoom => leave sid previousRoom g
    | None => g
    end
  else g.

Definition on_connection (sid : string) (w : LegacyWorld) : Result :=
  (mkLegacyWorld (gameRooms w) (map_set sid [sid] (legacy_groups w)),
   [emit (socket_emit sid) "connection_response"
         (connection_info "connected" sid
                          "Successfully connected to gaming server")]).

(** [gameRooms.get(roomId)] follows the [set] of an absent room, so the
    last branch of the [match] is never taken. *)
Definition on_join_room (sid : string) (now : Time)
  (roomId playerName : JsStr) (w : LegacyWorld) : Result :=
  if negb (truthy roomId) || negb (truthy playerName) then
    (w, [emit (socket_emit sid) "join_room_response"
              (status_error "Room ID and player name are required")])
  else
    let g1 := leave_previous sid (legacy_groups w) in
    let rooms1 :=
      if negb (map_has (str roomId) (gameRooms w)) then
        map_set (str roomId) (mkLegacyRoom [] None now) (gameRooms w)
      else gameRooms w in
    let g2 := join sid (str roomId) g1 in
    match map_get (str roomId) rooms1 with
    | Some room =>
        let players :=
          legacy_players room ++ [mkPlayer sid (str playerName) now] in
        (mkLegacyWorld
           (map_set (str roomId)
              (mkLegacyRoom players (legacy_gameState room)
                            (legacy_createdAt room))
              rooms1)
           g2,
         [emit (io_to (str roomId)) "player_joined"
               (roster_update (str roomId) players
                  (str playerName +s+ " has joined the room") (length players));
          emit (socket_emit sid) "join_room_response"
               (join_success (str roomId) players
                  ("You have joined room " +s+ str roomId))])
    | None => (mkLegacyWorld rooms1 g2, [])
    end.

Definition on_send_message (sid : string) (now : Time)
  (roomId playerName message : JsStr) (w : LegacyWorld) : Result :=
  if negb (truthy roomId) || negb (truthy message) then
    (w, [emit (socket_emit sid) "message_response"
              (status_error "Room ID and message content are required")])
  else
    match map_get (str roomId) (gameRooms w) with
    | None =>
        (w, [emit (socket_emit sid) "message_response"
                  (status_error ("Room " +s+ str roomId +s+ " does not exist"))])
    | Some room =>
        (w, [emit (io_to (str roomId)) "receive_message"
                  (chat sid playerName (str message) now (str roomId))])
    end.

(** The body of [gameRooms.forEach((room, roomId) => ...)].  The only
    entry an iteration changes or deletes is its own, so each entry is
    visited as it was when the iteration began. *)
Definition disconnect_entry (sid : string) (acc : Result)
  (entry : string * LegacyRoom) : Result :=
  let '(w, out) := acc in
  let '(roomId, room) := entry in
  match findIndex (fun player => socketId player =? sid)
                  (legacy_players room) with
  | None => (w, out)
  | Some playerIndex =>
      match nth_error (legacy_players room) playerIndex with
      | None => (w, out)
      | Some removedPlayer =>
          let players := splice1 playerIndex (legacy_players room) in
          let rooms1 :=
            map_set roomId
              (mkLegacyRoom players (legacy_gameState room)
                            (legacy_createdAt room))
              (gameRooms w) in
          if (0 <? length players)%nat then
            (mkLegacyWorld rooms1 (legacy_groups w),
             out ++
             [emit (io_to roomId) "player_left"
                   (roster_update roomId players
                      (name removedPlayer +s+ " has left the room")
                      (length players))])
          else
            (mkLegacyWorld (map_delete roomId rooms1) (legacy_groups w), out)
      end
  end.

Definition on_disconnect (sid : string) (w : LegacyWorld) : Result :=
  let w0 := mkLegacyWorld (gameRooms w) (map_delete sid (legacy_groups w)) in
  fold_left (disconnect_entry sid) (gameRooms w0) (w0, []).

Definition on_leave_room (sid : string)
  (roomId playerName : JsStr) (w : LegacyWorld) : Result :=
  if negb (truthy roomId) then
    (w, [emit (socket_emit sid) "leave_room_response"
              (status_error "Room ID is required")])
  else
    match map_get (str roomId) (gameRooms w) with
    | None =>
        (w, [emit (socket_emit sid) "leave_room_response"
                  (status_error ("Room " +s+ str roomId +s+ " does not exist"))])
    | Some room =>
        let g1 := leave sid (str roomId) (legacy_groups w) in
        let '(players, rooms1) :=
          match findIndex (fun player => socketId player =? sid)
                          (legacy_players room) with
          | Some playerIndex =>
              (splice1 playerIndex (legacy_players room),
               map_set (str roomId)
                 (mkLegacyRoom (splice1 playerIndex (legacy_players room))
                               (legacy_gameState room) (legacy_createdAt room))
                 (gameRooms w))
          | None => (legacy_players room, gameRooms w)
          end in
        let '(rooms2, broadcast) :=
          if (0 <? length players)%nat then
            (rooms1,
             [emit (io_to (str roomId)) "player_left"
                   (roster_update (str roomId) players
                      (str playerName +s+ " has left the room")
                      (length players))])
          else (map_delete (str roomId) rooms1, []) in
        (mkLegacyWorld rooms2 g1,
         broadcast ++
         [emit (socket_emit sid) "leave_room_response"
               (status_success ("You have left room " +s+ str roomId))])
    end.

End Legacy.

(** The call of a handler of the earlier server.  It has no handler for
    the game events, which it ignores; its handlers of [join_room],
    [send_message] and [leave_room] destructure [data] first, as those of
    [socket.ts] do. *)
Definition legacy_handle (w : LegacyWorld) (i : Input)
  : Completion (LegacyWorld * list Emission) :=
  match i with
  | connection sid => returned (Legacy.on_connection sid w)
  | received sid now ev =>
      match ev with
      | join_room roomId playerName =>
          returned (Legacy.on_join_room sid now roomId playerName w)
      | send_message roomId playerName message =>
          returned (Legacy.on_send_message sid now roomId playerName message w)
      | leave_room roomId playerName =>
          returned (Legacy.on_leave_room sid roomId playerName w)
      | disconnect => returned (Legacy.on_disconnect sid w)
      | game_start _ _ _ | game_move _ _ _ _ | game_reset _ _ =>
          returned (w, [])
      | no_payload name =>
          match name with
          | name_join_room | name_send_message | name_leave_room =>
              threw TypeError
          | name_game_start | name_game_move | name_game_reset =>
              returned (w, [])
          end
      end
  end.

(** One event handled by the earlier server. *)
Definition legacy_step (w : LegacyWorld) (i : Input) : LegacyWorld * list Emission :=
  match legacy_handle w i with
  | returned result => result
  | threw _ => (w, [])
  end.

Fixpoint legacy_run (w : LegacyWorld) (tr : list Input) : LegacyWorld :=
  match tr with
  | [] => w
  | i :: tr' => legacy_run (fst (legacy_step w i)) tr'
  end.

(** The events both servers handle. *)
Definition handled_by_both (i : Input) : bool :=
  match i with
  | connection _ => true
  | received _ _ ev =>
      match ev with
      | join_room _ _ | send_message _ _ _ | leave_room _ _ | disconnect => true
      | game_start _ _ _ | game_move _ _ _ _ | game_reset _ _ => false
      | no_payload name =>
          match name with
          | name_join_room | name_send_message | name_leave_room => true
          | name_game_start | name_game_move | name_game_reset => false
          end
      end
  end.

(** A room of the registry as the earlier server keeps it. *)
Definition forget_id (room : GameRoom) : LegacyRoom :=
  mkLegacyRoom (players room) (gameState room) (createdAt room).

Definition view_rooms (rooms : Rooms) : JsMap LegacyRoom :=
  map (fun e => (fst e, forget_id (snd e))) rooms.

(** The world of [socket.ts] as the earlier server would hold it. *)
Definition legacy_view (w : World) : LegacyWorld :=
  mkLegacyWorld (view_rooms (registry w)) (groups w).

(* ------------------------------------------------------------------ *)
(** ** Facts about the containers *)

Section MapFacts.
Context {V : Type}.
Implicit Types (m : JsMap V) (k : string) (v : V).

Lemma map_get_set k k' v m :
  map_get k' (map_set k v m) = if k =? k' then Some v else map_get k' m.
Proof.
  induction m as [|[k0 v0] m IH]; simpl.
  - reflexivity.
  - destruct (k0 =? k) eqn:E0; simpl.
    + apply String.eqb_eq in E0; subst k0.
      destruct (k =? k'); reflexivity.
    + destruct (k0 =? k') eqn:E1.
      * apply String.eqb_eq in E1; subst k0.
        rewrite String.eqb_sym, E0. reflexivity.
      * exact IH.
Qed.

Lemma map_get_set_eq k v m : map_get k (map_set k v m) = Some v.
Proof. rewrite map_get_set, String.eqb_refl. reflexivity. Qed.

Lemma map_get_set_ne k k' v m :
  k <> k' -> map_get k' (map_set k v m) = map_get k' m.
Proof.
  intros Hne. rewrite map_get_set.
  destruct (String.eqb_spec k k'); [contradiction | reflexivity].
Qed.

Lemma map_get_keys k m : map_get k m = None <-> ~ In k (map_keys m).
Proof.
  induction m as [|[k0 v0] m IH]; simpl.
  - split; [intros _ [] | reflexivity].
  - destruct (String.eqb_spec k0 k) as [->|Hne].
    + split; [discriminate | intros H; exfalso; apply H; now left].
    + rewrite IH. split.
      * intros H [E|Hin]; [contradiction | exact (H Hin)].
      * intros H Hin. apply H. now right.
Qed.

Lemma map_get_In k v m : map_get k m = Some v -> In (k, v) m.
Proof.
  induction m as [|[k0 v0] m IH]; simpl; [discriminate|].
  destruct (String.eqb_spec k0 k) as [->|Hne].
  - intros [= ->]. now left.
  - intros H. right. exact (IH H).
Qed.

Lemma map_keys_set_In k k' v m :
  In k' (map_keys (map_set k v m)) <-> k' = k \/ In k' (map_keys m).
Proof.
  induction m as [|[k0 v0] m IH]; simpl.
  - intuition.
  - destruct (String.eqb_spec k0 k) as [->|Hne]; simpl.
    + intuition.
    + rewrite IH. intuition.
Qed.

Lemma map_set_NoDup k v m :
  NoDup (map_keys m) -> NoDup (map_keys (map_set k v m)).
Proof.
  induction m as [|[k0 v0] m IH]; simpl; intros Hnd.
  - constructor; [intros [] | constructor].
  - inversion Hnd as [|? ? Hnotin Hnd']; subst.
    destruct (String.eqb_spec k0 k) as [->|Hne]; simpl.
    + constructor; assumption.
    + constructor; [|auto].
      intros Hin. apply map_keys_set_In in Hin as [E|Hin]; auto.
Qed.

Lemma map_keys_delete_In k k' m :
  In k' (map_keys (map_delete k m)) -> In k' (map_keys m).
Proof.
  induction m as [|[k0 v0] m IH]; simpl; [tauto|].
  destruct (k0 =? k); simpl; intuition.
Qed.

Lemma map_delete_NoDup k m :
  NoDup (map_keys m) -> NoDup (map_keys (map_delete k m)).
Proof.
  induction m as [|[k0 v0] m IH]; simpl; intros Hnd; [constructor|].
  inversion Hnd as [|? ? Hnotin Hnd']; subst.
  destruct (k0 =? k); simpl; [assumption|].
  constructor; [|auto].
  intros Hin. apply Hnotin. eapply map_keys_delete_In; eassumption.
Qed.

Lemma map_get_delete k k' m :
  NoDup (map_keys m) ->
  map_get k' (map_delete k m) = if k =? k' then None else map_get k' m.
Proof.
  induction m as [|[k0 v0] m IH]; simpl; intros Hnd.
  - destruct (k =? k'); reflexivity.
  - inversion Hnd as [|? ? Hnotin Hnd']; subst.
    destruct (String.eqb_spec k0 k) as [->|Hne]; simpl.
    + destruct (String.eqb_spec k k') as [->|Hne'].
      * now apply map_get_keys.
      * reflexivity.
    + destruct (String.eqb_spec k0 k') as [->|Hne'].
      * destruct (String.eqb_spec k k'); [congruence | reflexivity].
      * auto.
Qed.

Lemma map_has_get k m : map_has k m = true <-> exists v, map_get k m = Some v.
Proof.
  unfold map_has. destruct (map_get k m) as [v|].
  - split; [intros _; now exists v | reflexivity].
  - split; [discriminate | intros [v [=]]].
Qed.

End MapFacts.

Section ArrayFacts.
Context {A : Type}.
Implicit Types (f : A -> bool) (l : list A).

Lemma findIndex_None f l :
  findIndex f l = None <-> forall x, In x l -> f x = false.
Proof.
  induction l as [|x l IH]; simpl.
  - split; [intros _ ? [] | reflexivity].
  - destruct (f x) eqn:Ex.
    + split; [discriminate|]. intros H. rewrite (H x) in Ex; [discriminate|now left].
    + destruct (findIndex f l) as [n|].
      * split; [discriminate|]. intros H.
        assert (E : Some n = None) by (apply IH; intros y Hy; apply H; now right).
        discriminate E.
      * split; [|reflexivity]. intros _ y [<-|Hy]; [assumption|].
        now apply IH.
Qed.

Lemma findIndex_find f l :
  findIndex f l = None <-> find f l = None.
Proof.
  rewrite findIndex_None. split.
  - intros H. destruct (find f l) eqn:E; [|reflexivity].
    apply find_some in E as [Hin Hf]. rewrite (H _ Hin) in Hf. discriminate.
  - intros H x Hin. exact (find_none f l H x Hin).
Qed.

End ArrayFacts.

Lemma map_In_get {V : Type} (k : string) (v : V) (m : JsMap V) :
  NoDup (map_keys m) -> In (k, v) m -> map_get k m = Some v.
Proof.
  induction m as [|[k0 v0] m IH]; simpl; intros Hnd Hin; [contradiction|].
  inversion Hnd as [|? ? Hnotin Hnd']; subst.
  destruct Hin as [[= -> ->]|Hin].
  - now rewrite String.eqb_refl.
  - destruct (String.eqb_spec k0 k) as [->|Hne]; [|auto].
    exfalso. apply Hnotin. change k with (fst (k, v)). now apply in_map.
Qed.

(* ------------------------------------------------------------------ *)
(** ** The registry invariant *)

Lemma truthy_Some (v : JsStr) :
  truthy v = true -> exists s, v = Some s /\ s <> "".
Proof.
  destruct v as [s|]; simpl; [|discriminate].
  intros H. exists s. split; [reflexivity|].
  intros ->. discriminate H.
Qed.

Lemma truthy_str (v : JsStr) : truthy v = true -> str v <> "".
Proof. intros H. apply truthy_Some in H as (s & -> & Hs). exact Hs. Qed.

Lemma registry_ok_empty : registry_ok GameRoomService.empty.
Proof. split; [constructor | intros k room [=]]. Qed.

Lemma registry_ok_set k room rooms :
  registry_ok rooms -> room_ok k room -> registry_ok (map_set k room rooms).
Proof.
  intros [Hnd Hall] Hroom. split.
  - now apply map_set_NoDup.
  - intros k' room'. rewrite map_get_set.
    destruct (String.eqb_spec k k') as [<-|Hne].
    + now intros [= <-].
    + apply Hall.
Qed.

Lemma registry_ok_delete k rooms :
  registry_ok rooms -> registry_ok (map_delete k rooms).
Proof.
  intros [Hnd Hall]. split.
  - now apply map_delete_NoDup.
  - intros k' room'. rewrite map_get_delete by assumption.
    destruct (k =? k'); [discriminate | apply Hall].
Qed.

Lemma leave_previous_room_registry sid w :
  registry (leave_previous_room sid w) = registry w.
Proof.
  unfold leave_previous_room, socket_leave.
  destruct (1 <? length (socket_rooms sid w))%nat; [|reflexivity].
  destruct (find _ _); [|reflexivity].
  destruct (map_get sid (groups w)); reflexivity.
Qed.

Lemma socket_leave_registry sid room w :
  registry (socket_leave sid room w) = registry w.
Proof.
  unfold socket_leave. destruct (map_get sid (groups w)); reflexivity.
Qed.

(** The registry a successful [join_room] leaves. *)
Lemma join_room_registry sid now roomId playerName w :
  truthy roomId = true -> truthy playerName = true ->
  registry (fst (on_join_room sid now roomId playerName w)) =
  match map_get (str roomId) (registry w) with
  | Some room =>
      map_set (str roomId)
        (mkGameRoom (id room)
           (players room ++ [mkPlayer sid (str playerName) now])
           (gameState room) (createdAt room))
        (registry w)
  | None =>
      map_set (str roomId)
        (mkGameRoom (str roomId) [mkPlayer sid (str playerName) now] None now)
        (map_set (str roomId) (mkGameRoom (str roomId) [] None now)
                 (registry w))
  end.
Proof.
  intros Hr Hn. unfold on_join_room. rewrite Hr, Hn. cbn [negb orb fst].
  unfold roomExists, map_has, addPlayerToRoom, socket_join, with_registry,
    createRoom.
  cbn [registry snd]. rewrite leave_previous_room_registry.
  destruct (map_get (str roomId) (registry w)) as [room|] eqn:Hget;
    cbn [negb registry snd].
  - rewrite ?leave_previous_room_registry, Hget. reflexivity.
  - rewrite ?leave_previous_room_registry, map_get_set_eq. reflexivity.
Qed.

Lemma on_join_room_ok sid now roomId playerName w :
  registry_ok (registry w) ->
  registry_ok (registry (fst (on_join_room sid now roomId playerName w))).
Proof.
  intros Hok.
  destruct (truthy roomId) eqn:Hr; [destruct (truthy playerName) eqn:Hn|].
  - rewrite join_room_registry by assumption.
    pose proof (truthy_str _ Hr) as Hne.
    destruct (map_get (str roomId) (registry w)) as [room|] eqn:Hget.
    + apply registry_ok_set; [assumption|].
      destruct Hok as [_ Hall]. destruct (Hall _ _ Hget) as (Hid & _ & _).
      repeat split; simpl; [assumption | | assumption].
      intros E. apply app_eq_nil in E as [_ [=]].
    + destruct Hok as [Hnd Hall]. split.
      * now do 2 apply map_set_NoDup.
      * intros k room'. rewrite !map_get_set.
        destruct (String.eqb_spec (str roomId) k) as [<-|_].
        -- intros [= <-]. repeat split; simpl; [discriminate | assumption].
        -- apply Hall.
  - unfold on_join_room. rewrite Hr, Hn. simpl. assumption.
  - unfold on_join_room. rewrite Hr. simpl. assumption.
Qed.

Lemma registry_ok_delete_set k room rooms :
  registry_ok rooms -> registry_ok (map_delete k (map_set k room rooms)).
Proof.
  intros [Hnd Hall]. split.
  - now apply map_delete_NoDup, map_set_NoDup.
  - intros k' room'.
    rewrite map_get_delete, map_get_set by now apply map_set_NoDup.
    destruct (k =? k'); [discriminate | apply Hall].
Qed.

(** The registry a [leave_room] that passes both guards leaves. *)
Lemma leave_room_registry sid roomId playerName w room :
  truthy roomId = true ->
  map_get (str roomId) (registry w) = Some room ->
  registry (fst (on_leave_room sid roomId playerName w)) =
  match findIndex (fun p => socketId p =? sid) (players room) with
  | None =>
      match players room with
      | [] => map_delete (str roomId) (registry w)
      | _ => registry w
      end
  | Some index =>
      let rooms1 :=
        map_set (str roomId)
          (mkGameRoom (id room) (splice1 index (players room))
                      (gameState room) (createdAt room))
          (registry w) in
      match splice1 index (players room) with
      | [] => map_delete (str roomId) rooms1
      | _ => rooms1
      end
  end.
Proof.
  intros Hr Hget. unfold on_leave_room. rewrite Hr. cbn [negb].
  unfold roomExists, map_has. rewrite Hget. cbn [negb].
  unfold removePlayerFromRoom, getRoomPlayers, with_registry, deleteRoom.
  cbn [registry snd].
  rewrite !socket_leave_registry, Hget.
  destruct (findIndex _ (players room)) as [index|]; cbn [snd].
  - rewrite map_get_set_eq. cbn [players].
    destruct (splice1 index (players room)); reflexivity.
  - rewrite Hget.
    destruct (players room); reflexivity.
Qed.

Lemma on_leave_room_ok sid roomId playerName w :
  registry_ok (registry w) ->
  registry_ok (registry (fst (on_leave_room sid roomId playerName w))).
Proof.
  intros Hok.
  destruct (truthy roomId) eqn:Hr.
  - destruct (map_get (str roomId) (registry w)) as [room|] eqn:Hget.
    + rewrite (leave_room_registry _ _ _ _ room) by assumption.
      destruct (proj2 Hok _ _ Hget) as (Hid & Hpl & Hne).
      destruct (findIndex _ (players room)) as [index|].
      * cbv zeta. destruct (splice1 index (players room)) as [|p rest] eqn:Hs.
        -- now apply registry_ok_delete_set.
        -- apply registry_ok_set; [assumption|].
           repeat split; simpl; [assumption | discriminate | assumption].
      * destruct (players room); [now apply registry_ok_delete | assumption].
    + unfold on_leave_room, roomExists, map_has. rewrite Hr, Hget. simpl.
      assumption.
  - unfold on_leave_room. rewrite Hr. simpl. assumption.
Qed.

(** *** The [forEach] of the [disconnect] handler *)

(** One iteration, for a [room] of the array that is still the room the
    registry holds under [room.id]. *)
Lemma disconnect_room_registry sid w out room :
  NoDup (map_keys (registry w)) ->
  map_get (id room) (registry w) = Some room ->
  NoDup (map_keys (registry (fst (disconnect_room sid (w, out) room)))) /\
  groups (fst (disconnect_room sid (w, out) room)) = groups w /\
  forall k,
    map_get k (registry (fst (disconnect_room sid (w, out) room))) =
    if id room =? k then without_player sid room else map_get k (registry w).
Proof.
  intros Hnd Hget. unfold disconnect_room, without_player.
  destruct (find _ (players room)) as [player|] eqn:Hfind.
  - destruct (findIndex (fun p => socketId p =? sid) (players room))
      as [index|] eqn:Hidx.
    2:{ apply findIndex_find in Hidx. rewrite Hidx in Hfind. discriminate. }
    unfold removePlayerFromRoom, getRoomPlayers, with_registry, deleteRoom.
    cbn [registry snd]. rewrite Hget, Hidx. cbn [snd].
    rewrite map_get_set_eq. cbn [players].
    destruct (splice1 index (players room)) as [|p rest]; cbn [length Nat.ltb Nat.leb fst registry groups snd].
    + split; [now apply map_delete_NoDup, map_set_NoDup|].
      split; [reflexivity|]. intros k.
      rewrite map_get_delete, map_get_set by now apply map_set_NoDup.
      destruct (id room =? k); reflexivity.
    + split; [now apply map_set_NoDup|].
      split; [reflexivity|]. intros k. now rewrite map_get_set.
  - apply findIndex_find in Hfind. rewrite Hfind. cbn [fst].
    split; [assumption|]. split; [reflexivity|]. intros k.
    destruct (String.eqb_spec (id room) k) as [<-|_]; [assumption | reflexivity].
Qed.

Lemma disconnect_fold_registry sid (l : Rooms) : forall w out,
  NoDup (map_keys (registry w)) ->
  NoDup (map_keys l) ->
  (forall k room,
     In (k, room) l -> id room = k /\ map_get k (registry w) = Some room) ->
  NoDup (map_keys (registry
           (fst (fold_left (disconnect_room sid) (map_values l) (w, out))))) /\
  groups (fst (fold_left (disconnect_room sid) (map_values l) (w, out)))
  = groups w /\
  forall k,
    map_get k (registry
      (fst (fold_left (disconnect_room sid) (map_values l) (w, out)))) =
    if existsb (String.eqb k) (map_keys l) then
      match map_get k (registry w) with
      | Some room => without_player sid room
      | None => None
      end
    else map_get k (registry w).
Proof.
  induction l as [|[k0 room0] l IH]; intros w out Hnd Hl Hlive.
  - simpl. auto.
  - cbn [map_values map map_keys snd fst fold_left existsb] in *.
    inversion Hl as [|? ? Hnotin Hl']; subst.
    destruct (Hlive k0 room0 (or_introl eq_refl)) as [Hid Hget0].
    rewrite <- Hid in Hget0.
    destruct (disconnect_room_registry sid w out room0 Hnd Hget0)
      as (Hnd1 & Hg1 & Hget1).
    destruct (disconnect_room sid (w, out) room0) as [w1 out1].
    cbn [fst] in Hnd1, Hg1, Hget1.
    assert (Hlive1 : forall k room, In (k, room) l ->
              id room = k /\ map_get k (registry w1) = Some room).
    { intros k room Hin.
      destruct (Hlive k room (or_intror Hin)) as [Hidk Hgetk].
      split; [assumption|]. rewrite Hget1.
      destruct (String.eqb_spec (id room0) k) as [E|_]; [|assumption].
      exfalso. apply Hnotin. rewrite <- Hid, E.
      change k with (fst (k, room)). now apply in_map. }
    destruct (IH w1 out1 Hnd1 Hl' Hlive1) as (Hnd2 & Hg2 & Hget2).
    split; [exact Hnd2|]. split; [exact (eq_trans Hg2 Hg1)|]. intros k.
    rewrite Hget2, Hget1, Hid.
    destruct (String.eqb_spec k k0) as [->|Hne]; cbn [orb].
    + rewrite String.eqb_refl.
      replace (existsb (String.eqb k0) (map_keys l)) with false.
      * rewrite Hid in Hget0. rewrite Hget0. reflexivity.
      * symmetry. apply not_true_is_false. intros Hex.
        apply existsb_exists in Hex as (x & Hx & Heq).
        apply String.eqb_eq in Heq. subst x. contradiction.
    + destruct (String.eqb_spec k0 k) as [E|_]; [congruence | reflexivity].
Qed.

(** The registry after [disconnect]: every room loses the first entry of
    the closed socket, and a room that loses its only entry is gone. *)
Lemma on_disconnect_registry sid w :
  registry_ok (registry w) ->
  NoDup (map_keys (registry (fst (on_disconnect sid w)))) /\
  forall k,
    map_get k (registry (fst (on_disconnect sid w))) =
    match map_get k (registry w) with
    | Some room => without_player sid room
    | None => None
    end.
Proof.
  intros [Hnd Hall]. unfold on_disconnect, getAllRooms.
  cbn [socket_close registry].
  destruct (disconnect_fold_registry sid (registry w)
              (mkWorld (registry w) (map_delete sid (groups w))) [])
    as (Hnd' & _ & Hget'); cbn [registry]; try assumption.
  - intros k room Hin. pose proof (map_In_get _ _ _ Hnd Hin) as Hget.
    split; [apply (Hall _ _ Hget) | assumption].
  - split; [assumption|]. intros k. rewrite Hget'. cbn [registry].
    destruct (existsb (String.eqb k) (map_keys (registry w))) eqn:Hex;
      [reflexivity|].
    replace (map_get k (registry w)) with (@None GameRoom); [reflexivity|].
    symmetry. apply map_get_keys. intros Hin.
    apply not_true_iff_false in Hex. apply Hex.
    apply existsb_exists. exists k. split; [assumption | apply String.eqb_refl].
Qed.

Lemma without_player_ok sid k room room' :
  room_ok k room -> without_player sid room = Some room' -> room_ok k room'.
Proof.
  intros (Hid & Hpl & Hne). unfold without_player.
  destruct (findIndex _ (players room)) as [index|].
  - destruct (splice1 index (players room)) as [|p rest]; [discriminate|].
    intros [= <-]. repeat split; simpl; [assumption | discriminate | assumption].
  - intros [= <-]. repeat split; assumption.
Qed.

Lemma on_disconnect_ok sid w :
  registry_ok (registry w) ->
  registry_ok (registry (fst (on_disconnect sid w))).
Proof.
  intros Hok. destruct (on_disconnect_registry sid w Hok) as [Hnd Hget].
  split; [assumption|]. intros k room'. rewrite Hget.
  destruct (map_get k (registry w)) as [room|] eqn:Hk; [|discriminate].
  apply without_player_ok. exact (proj2 Hok _ _ Hk).
Qed.

(** Every handler preserves the invariant. *)
Lemma step_ok w i :
  registry_ok (registry w) -> registry_ok (registry (fst (step w i))).
Proof.
  intros Hok. destruct i as [sid | sid now ev]; [exact Hok|].
  destruct ev; cbn [step handle].
  - now apply on_join_room_ok.
  - unfold on_send_message.
    destruct (_ || _); [exact Hok|]. destruct (negb _); exact Hok.
  - now apply on_leave_room_ok.
  - unfold on_game_start.
    destruct (_ || _); [exact Hok|]. destruct (_ <? _)%nat; [exact Hok|].
    destruct (nth_error _ 0); [|exact Hok].
    destruct (nth_error _ 1); exact Hok.
  - unfold on_game_move. destruct (_ || _); exact Hok.
  - unfold on_game_reset. destruct (negb _); exact Hok.
  - now apply on_disconnect_ok.
  - exact Hok.
Qed.

Lemma run_ok tr : forall w,
  registry_ok (registry w) -> registry_ok (registry (run w tr)).
Proof.
  induction tr as [|i tr IH]; intros w Hok; simpl; [exact Hok|].
  apply IH, step_ok, Hok.
Qed.

Lemma reachable_ok tr : registry_ok (registry (run init tr)).
Proof. apply run_ok, registry_ok_empty. Qed.

(* ------------------------------------------------------------------ *)
(** ** Rooms exist exactly while they have players *)

Lemma roomExists_get roomId rooms :
  roomExists roomId rooms = true <-> exists room, map_get roomId rooms = Some room.
Proof. apply map_has_get. Qed.

Lemma findIndex_own_entry (sid : string) (p : Player) (l : list Player) :
  socketId p = sid ->
  findIndex (fun q => socketId q =? sid) (p :: l) = Some 0.
Proof. intros <-. simpl. now rewrite String.eqb_refl. Qed.

Lemma findIndex_absent (sid : string) (l : list Player) :
  ~ In sid (map socketId l) ->
  findIndex (fun q => socketId q =? sid) l = None.
Proof.
  intros Hnotin. apply findIndex_None. intros q Hq.
  destruct (String.eqb_spec (socketId q) sid) as [E|_]; [|reflexivity].
  exfalso. apply Hnotin. rewrite <- E. now apply in_map.
Qed.

(** C3. After every sequence of handled events, a room id is present in
    the registry if and only if its players list has at least one entry;
    and when the only entry of a room is that of the connection that sends
    [leave_room] for it, or that disconnects, the room is absent from the
    registry as soon as that one event has been handled. *)
Theorem C3_room_present_iff_has_player :
  forall (tr : list Input) (roomId : string),
    (roomExists roomId (registry (run init tr)) = true <->
     1 <= length (getRoomPlayers roomId (registry (run init tr)))) /\
    (forall (sid : string) (now : Time) (playerName : JsStr) (p : Player),
       getRoomPlayers roomId (registry (run init tr)) = [p] ->
       socketId p = sid ->
       roomExists roomId
         (registry (fst (step (run init tr)
            (received sid now (leave_room (Some roomId) playerName))))) = false /\
       roomExists roomId
         (registry (fst (step (run init tr)
            (received sid now disconnect)))) = false).
Proof.
  intros tr roomId. pose proof (reachable_ok tr) as Hok.
  set (w := run init tr) in *. split.
  - unfold getRoomPlayers. rewrite roomExists_get. split.
    + intros [room Hget]. rewrite Hget.
      destruct (proj2 Hok _ _ Hget) as (_ & Hpl & _).
      destruct (players room); [contradiction | simpl; lia].
    + destruct (map_get roomId (registry w)) as [room|].
      * intros _. now exists room.
      * simpl. lia.
  - intros sid now playerName p Hp Hsid.
    unfold getRoomPlayers in Hp.
    destruct (map_get roomId (registry w)) as [room|] eqn:Hget; [|discriminate].
    destruct (proj2 Hok _ _ Hget) as (_ & _ & Hne).
    assert (Hr : truthy (Some roomId) = true).
    { simpl. destruct (String.eqb_spec roomId ""); [contradiction | reflexivity]. }
    unfold roomExists, map_has. split.
    + cbn [step handle].
      rewrite (leave_room_registry sid (Some roomId) playerName w room Hr Hget).
      rewrite Hp, (findIndex_own_entry sid p [] Hsid).
      cbn [splice1 firstn skipn app str].
      rewrite map_get_delete by (apply map_set_NoDup, Hok).
      now rewrite String.eqb_refl.
    + cbn [step handle].
      rewrite (proj2 (on_disconnect_registry sid w Hok) roomId), Hget.
      unfold without_player.
      rewrite Hp, (findIndex_own_entry sid p [] Hsid). reflexivity.
Qed.

(** C3 at work: the room a connection made and then left is gone, and so
    is the room of a connection that closed. *)
Lemma C3_witness :
  getRoomPlayers "R1"
    (registry (run init [connection "s1";
                         received "s1" 5 (join_room (Some "R1") (Some "Ann"))]))
  = [mkPlayer "s1" "Ann" 5] /\
  roomExists "R1"
    (registry (fst (step
       (run init [connection "s1";
                  received "s1" 5 (join_room (Some "R1") (Some "Ann"))])
       (received "s1" 9 (leave_room (Some "R1") (Some "Ann")))))) = false /\
  roomExists "R1"
    (registry (fst (step
       (run init [connection "s1";
                  received "s1" 5 (join_room (Some "R1") (Some "Ann"))])
       (received "s1" 9 disconnect)))) = false.
Proof.
  split; [reflexivity|].
  exact (proj2 (C3_room_present_iff_has_player
                  [connection "s1";
                   received "s1" 5 (join_room (Some "R1") (Some "Ann"))] "R1")
               "s1" 9 (Some "Ann") (mkPlayer "s1" "Ann" 5)
               eq_refl eq_refl).
Defined.

(* ------------------------------------------------------------------ *)
(** ** Silent returns and validation errors *)



(** C7, on the code.  Each of the three handlers destructures [data]
    before it checks anything.  When [join_room], [send_message] or
    [leave_room] arrives with no data object, so that every required
    field is missing, the handler throws a TypeError: no error response is
    emitted to the sender, nor anything else, and the world is left as it
    was. *)
Theorem C7_no_payload_throws_before_the_check :
  forall (w : World) (sid : string) (now : Time),
    handle w (received sid now (no_payload name_join_room)) = threw TypeError /\
    handle w (received sid now (no_payload name_send_message)) = threw TypeError /\
    handle w (received sid now (no_payload name_leave_room)) = threw TypeError /\
    step w (received sid now (no_payload name_join_room)) = (w, []) /\
    step w (received sid now (no_payload name_send_message)) = (w, []) /\
    step w (received sid now (no_payload name_leave_room)) = (w, []) /\
    ~ In (emit (socket_emit sid) "join_room_response"
               (status_error "Room ID and player name are required"))
         (snd (step w (received sid now (no_payload name_join_room)))) /\
    ~ In (emit (socket_emit sid) "message_response"
               (status_error "Room ID and message content are required"))
         (snd (step w (received sid now (no_payload name_send_message)))) /\
    ~ In (emit (socket_emit sid) "leave_room_response"
               (status_error "Room ID is required"))
         (snd (step w (received sid now (no_payload name_leave_room)))).
Proof.
  intros w sid now. cbn [step handle snd].
  repeat (split; [reflexivity|]).
  split; [|split]; intros [].
Qed.

(** X19. When [join_room], [send_message] or [leave_room] arrives with a
    data object in which a required field is missing (undefined or the
    empty string), the handler returns, having emitted one error response,
    to the socket of the sender alone, and having left the world, registry
    included, as it was. *)
Theorem X19_missing_field_is_reported_to_sender_only :
  forall (w : World) (sid : string) (now : Time)
         (roomId playerName message : JsStr),
    (truthy roomId = false \/ truthy playerName = false ->
     handle w (received sid now (join_room roomId playerName)) =
     returned
       (w, [emit (socket_emit sid) "join_room_response"
                 (status_error "Room ID and player name are required")])) /\
    (truthy roomId = false \/ truthy message = false ->
     handle w (received sid now (send_message roomId playerName message)) =
     returned
       (w, [emit (socket_emit sid) "message_response"
                 (status_error "Room ID and message content are required")])) /\
    (truthy roomId = false ->
     handle w (received sid now (leave_room roomId playerName)) =
     returned
       (w, [emit (socket_emit sid) "leave_room_response"
                 (status_error "Room ID is required")])).
Proof.
  intros w sid now roomId playerName message. cbn [handle].
  unfold on_join_room, on_send_message, on_leave_room.
  split; [|split].
  - intros [H|H]; rewrite H; [reflexivity|].
    destruct (truthy roomId); reflexivity.
  - intros [H|H]; rewrite H; [reflexivity|].
    destruct (truthy roomId); reflexivity.
  - intros H. rewrite H. reflexivity.
Qed.

(** Ann is connected and in room R1; Bob is connected. *)
Lemma X19_witness :
  handle (run init [connection "ann"; connection "bob";
            received "ann" 1 (join_room (Some "R1") (Some "Ann"))])
         (received "bob" 3 (join_room (Some "R1") None)) =
  returned
    (run init [connection "ann"; connection "bob";
       received "ann" 1 (join_room (Some "R1") (Some "Ann"))],
     [emit (socket_emit "bob") "join_room_response"
           (status_error "Room ID and player name are required")]) /\
  handle (run init [connection "ann"; connection "bob";
            received "ann" 1 (join_room (Some "R1") (Some "Ann"))])
         (received "ann" 3 (send_message (Some "R1") (Some "Ann") (Some ""))) =
  returned
    (run init [connection "ann"; connection "bob";
       received "ann" 1 (join_room (Some "R1") (Some "Ann"))],
     [emit (socket_emit "ann") "message_response"
           (status_error "Room ID and message content are required")]) /\
  handle (run init [connection "ann"; connection "bob";
            received "ann" 1 (join_room (Some "R1") (Some "Ann"))])
         (received "ann" 3 (leave_room None (Some "Ann"))) =
  returned
    (run init [connection "ann"; connection "bob";
       received "ann" 1 (join_room (Some "R1") (Some "Ann"))],
     [emit (socket_emit "ann") "leave_room_response"
           (status_error "Room ID is required")]).
Proof.
  split; [|split].
  - apply (proj1 (X19_missing_field_is_reported_to_sender_only
                    _ "bob" 3 (Some "R1") None None)).
    right. reflexivity.
  - apply (proj1 (proj2 (X19_missing_field_is_reported_to_sender_only
                    _ "ann" 3 (Some "R1") (Some "Ann") (Some "")))).
    right. reflexivity.
  - apply (proj2 (proj2 (X19_missing_field_is_reported_to_sender_only
                    _ "ann" 3 None (Some "Ann") None))).
    reflexivity.
Defined.

(* ------------------------------------------------------------------ *)
(** ** [leave_room] from a connection the room does not list *)

(** C10. In a world reached from the start, [leave_room] for an existing
    room that does not list the sender still broadcasts [player_left] to
    the room, with the supplied name in the message and the roster and
    count as they were, and still answers the sender with a success
    [leave_room_response]; the registry is not modified. *)
Theorem C10_leave_room_by_outsider :
  forall (tr : list Input) (sid : string) (now : Time)
         (roomId : string) (playerName : JsStr),
    roomExists roomId (registry (run init tr)) = true ->
    ~ In sid (room_sockets roomId (run init tr)) ->
    snd (step (run init tr)
              (received sid now (leave_room (Some roomId) playerName))) =
    [emit (io_to roomId) "player_left"
          (roster_update roomId
             (getRoomPlayers roomId (registry (run init tr)))
             (str playerName +s+ " has left the room")
             (length (getRoomPlayers roomId (registry (run init tr)))));
     emit (socket_emit sid) "leave_room_response"
          (status_success ("You have left room " +s+ roomId))] /\
    registry (fst (step (run init tr)
                (received sid now (leave_room (Some roomId) playerName)))) =
    registry (run init tr).
Proof.
  intros tr sid now roomId playerName Hex Hout.
  pose proof (reachable_ok tr) as Hok.
  set (w := run init tr) in *.
  pose proof Hex as Hex'. apply roomExists_get in Hex' as [room Hget].
  destruct (proj2 Hok _ _ Hget) as (_ & Hpl & Hne).
  unfold room_sockets, getRoomPlayers in Hout. rewrite Hget in Hout.
  apply findIndex_absent in Hout.
  assert (Hr : truthy (Some roomId) = true).
  { simpl. destruct (String.eqb_spec roomId ""); [contradiction | reflexivity]. }
  cbn [step handle]. unfold on_leave_room. rewrite Hr. cbn [negb str]. rewrite Hex. cbn [negb].
  unfold removePlayerFromRoom, with_registry, getRoomPlayers.
  cbn [registry]. rewrite ?socket_leave_registry, Hget, Hout.
  cbn [snd registry]. rewrite ?socket_leave_registry, ?Hget.
  destruct (players room) as [|p rest]; [contradiction|].
  cbn [length Nat.ltb Nat.leb snd fst registry app].
  split; reflexivity.
Qed.

Lemma C10_witness :
  snd (step (run init [connection "s1"; connection "s2";
                       received "s1" 5 (join_room (Some "R1") (Some "Ann"))])
            (received "s2" 9 (leave_room (Some "R1") (Some "Bob")))) =
  [emit (io_to "R1") "player_left"
        (roster_update "R1" [mkPlayer "s1" "Ann" 5] "Bob has left the room" 1);
   emit (socket_emit "s2") "leave_room_response"
        (status_success "You have left room R1")] /\
  registry (fst (step
     (run init [connection "s1"; connection "s2";
                received "s1" 5 (join_room (Some "R1") (Some "Ann"))])
     (received "s2" 9 (leave_room (Some "R1") (Some "Bob"))))) =
  registry (run init [connection "s1"; connection "s2";
                      received "s1" 5 (join_room (Some "R1") (Some "Ann"))]).
Proof.
  apply (C10_leave_room_by_outsider
           [connection "s1"; connection "s2";
            received "s1" 5 (join_room (Some "R1") (Some "Ann"))]
           "s2" 9 "R1" (Some "Bob")).
  - reflexivity.
  - vm_compute. intros [H|[]]. discriminate H.
Defined.

(* ------------------------------------------------------------------ *)
(** ** Chat *)

Lemma nonempty_truthy (s : string) : s <> "" -> truthy (Some s) = true.
Proof.
  intros Hs. simpl. destruct (String.eqb_spec s ""); [contradiction | reflexivity].
Qed.

(** A socket whose [socket.rooms] holds [room] is reached by
    [io.to(room).emit]. *)
Lemma group_member_receives (room s : string) (w : World) :
  set_has room (socket_rooms s w) = true -> In s (receivers w (io_to room)).
Proof.
  unfold socket_rooms, receivers, group_members.
  destruct (map_get s (groups w)) as [rooms|] eqn:Hget; [|discriminate].
  intros Hhas. apply map_get_In in Hget.
  change s with (fst (s, rooms)). apply in_map.
  apply filter_In. split; assumption.
Qed.

(** C8. A [send_message] with a message, for a room that exists, emits
    exactly one event: [receive_message], addressed to the whole group of
    the room by [io.to(roomId)], carrying the sender's connection id, the
    sender's name, the content, the clock reading and the room id.  Every
    socket in the group of the room is among its receivers, the sender
    like any other; the world, registry included, is left as it was. *)
Theorem C8_send_message_reaches_the_room :
  forall (w : World) (sid : string) (now : Time)
         (roomId : string) (playerName : JsStr) (message : string),
    roomId <> "" -> message <> "" ->
    roomExists roomId (registry w) = true ->
    step w (received sid now
              (send_message (Some roomId) playerName (Some message))) =
    (w, [emit (io_to roomId) "receive_message"
              (chat sid playerName message now roomId)]) /\
    (forall s, set_has roomId (socket_rooms s w) = true ->
               In s (receivers w (io_to roomId))).
Proof.
  intros w sid now roomId playerName message Hr Hm Hex. split.
  - cbn [step handle]. unfold on_send_message.
    rewrite (nonempty_truthy _ Hr), (nonempty_truthy _ Hm).
    cbn [negb orb str]. rewrite Hex. reflexivity.
  - intros s. apply group_member_receives.
Qed.

(** Ann and Bob are both in room R1; Ann says hi. *)
Lemma C8_witness :
  step (run init [connection "ann"; connection "bob";
                  received "ann" 1 (join_room (Some "R1") (Some "Ann"));
                  received "bob" 2 (join_room (Some "R1") (Some "Bob"))])
       (received "ann" 7 (send_message (Some "R1") (Some "Ann") (Some "hi"))) =
  (run init [connection "ann"; connection "bob";
             received "ann" 1 (join_room (Some "R1") (Some "Ann"));
             received "bob" 2 (join_room (Some "R1") (Some "Bob"))],
   [emit (io_to "R1") "receive_message"
         (chat "ann" (Some "Ann") "hi" 7 "R1")]) /\
  In "ann" (receivers
    (run init [connection "ann"; connection "bob";
               received "ann" 1 (join_room (Some "R1") (Some "Ann"));
               received "bob" 2 (join_room (Some "R1") (Some "Bob"))])
    (io_to "R1")) /\
  In "bob" (receivers
    (run init [connection "ann"; connection "bob";
               received "ann" 1 (join_room (Some "R1") (Some "Ann"));
               received "bob" 2 (join_room (Some "R1") (Some "Bob"))])
    (io_to "R1")) /\
  receivers
    (run init [connection "ann"; connection "bob";
               received "ann" 1 (join_room (Some "R1") (Some "Ann"));
               received "bob" 2 (join_room (Some "R1") (Some "Bob"))])
    (io_to "R1") = ["ann"; "bob"].
Proof.
  destruct (C8_send_message_reaches_the_room
              (run init [connection "ann"; connection "bob";
                 received "ann" 1 (join_room (Some "R1") (Some "Ann"));
                 received "bob" 2 (join_room (Some "R1") (Some "Bob"))])
              "ann" 7 "R1" (Some "Ann") "hi")
    as [Hstep Hall]; [discriminate | discriminate | reflexivity |].
  split; [exact Hstep|].
  split; [apply Hall; reflexivity|].
  split; [apply Hall; reflexivity | reflexivity].
Defined.

(* ------------------------------------------------------------------ *)
(** ** Starting a game *)

Lemma with_symbols_tail (n : nat) (l : list Player) :
  with_symbols (S n) l =
  map (fun p => mkSymbolPlayer (name p) (socketId p) "O") l.
Proof.
  revert n. induction l as [|p l IH]; intros n; simpl; [reflexivity|].
  now rewrite IH.
Qed.

(** [addPlayerToRoom] appends: the new player is behind every player the
    room already had. *)
Lemma addPlayerToRoom_appends roomId p rooms :
  roomExists roomId rooms = true ->
  getRoomPlayers roomId (snd (addPlayerToRoom roomId p rooms)) =
  getRoomPlayers roomId rooms ++ [p].
Proof.
  intros Hex. apply roomExists_get in Hex as [room Hget].
  unfold addPlayerToRoom, getRoomPlayers. rewrite Hget. cbn [snd].
  now rewrite map_get_set_eq.
Qed.

(** [removePlayerFromRoom] takes one entry out and keeps the others in the
    order they had. *)
Lemma removePlayerFromRoom_keeps_order roomId sid rooms :
  fst (removePlayerFromRoom roomId sid rooms) = true ->
  exists before p after,
    getRoomPlayers roomId rooms = before ++ p :: after /\
    socketId p = sid /\
    getRoomPlayers roomId (snd (removePlayerFromRoom roomId sid rooms)) =
    before ++ after.
Proof.
  unfold removePlayerFromRoom, getRoomPlayers.
  destruct (map_get roomId rooms) as [room|] eqn:Hget; [|discriminate].
  destruct (findIndex _ (players room)) as [index|] eqn:Hidx; [|discriminate].
  intros _. cbn [snd]. rewrite map_get_set_eq. cbn [players].
  revert index Hidx. generalize (players room) as l.
  induction l as [|q l IH]; intros index; simpl; [discriminate|].
  destruct (String.eqb_spec (socketId q) sid) as [E|Hne].
  - intros [= <-]. exists [], q, l. auto.
  - destruct (findIndex _ l) as [j|] eqn:Hj; [|discriminate].
    intros [= <-]. destruct (IH j eq_refl) as (before & p & after & -> & Hp & Hs).
    exists (q :: before), p, after. repeat split; [assumption|].
    unfold splice1 in *. cbn [firstn skipn app]. f_equal. exact Hs.
Qed.

(** What [game_start] does in a room of two or more. *)
Lemma on_game_start_emits sid roomId playerName gameType w p0 p1 rest :
  roomId <> "" -> gameType <> "" ->
  getRoomPlayers roomId (registry w) = p0 :: p1 :: rest ->
  on_game_start sid (Some roomId) playerName (Some gameType) w =
  (w,
   [emit (io_to (socketId p0)) "game_start"
         (game_start_data gameType
            (mkSymbolPlayer (name p0) (socketId p0) "X"
             :: mkSymbolPlayer (name p1) (socketId p1) "O"
             :: map (fun p => mkSymbolPlayer (name p) (socketId p) "O") rest)
            "X");
    emit (io_to (socketId p1)) "game_start"
         (game_start_data gameType
            (mkSymbolPlayer (name p0) (socketId p0) "X"
             :: mkSymbolPlayer (name p1) (socketId p1) "O"
             :: map (fun p => mkSymbolPlayer (name p) (socketId p) "O") rest)
            "O")]).
Proof.
  intros Hr Hg Hpl. unfold on_game_start.
  rewrite (nonempty_truthy _ Hr), (nonempty_truthy _ Hg).
  cbn [negb orb str]. rewrite Hpl.
  cbn [length Nat.ltb Nat.leb nth_error with_symbols Nat.eqb].
  now rewrite with_symbols_tail.
Qed.

(** C5. In a room of exactly two players, [game_start] with [roomId] and
    [gameType] present addresses [playerSymbol] X to the first entry of the
    players list and O to the second, whichever connection [sid] sent the
    event.  The first entry is the player that was added first:
    [addPlayerToRoom] puts a player behind all those already there, and
    [removePlayerFromRoom] keeps the order of those that stay. *)
Theorem C5_two_players_X_then_O :
  forall (w : World) (sid : string) (now : Time)
         (roomId : string) (playerName : JsStr) (gameType : string)
         (first second : Player),
    roomId <> "" -> gameType <> "" ->
    getRoomPlayers roomId (registry w) = [first; second] ->
    step w (received sid now
              (game_start (Some roomId) playerName (Some gameType))) =
    (w,
     [emit (io_to (socketId first)) "game_start"
           (game_start_data gameType
              [mkSymbolPlayer (name first) (socketId first) "X";
               mkSymbolPlayer (name second) (socketId second) "O"]
              "X");
      emit (io_to (socketId second)) "game_start"
           (game_start_data gameType
              [mkSymbolPlayer (name first) (socketId first) "X";
               mkSymbolPlayer (name second) (socketId second) "O"]
              "O")]) /\
    (forall p, roomExists roomId (registry w) = true ->
       getRoomPlayers roomId (snd (addPlayerToRoom roomId p (registry w))) =
       getRoomPlayers roomId (registry w) ++ [p]) /\
    (forall s, fst (removePlayerFromRoom roomId s (registry w)) = true ->
       exists before p after,
         getRoomPlayers roomId (registry w) = before ++ p :: after /\
         socketId p = s /\
         getRoomPlayers roomId
           (snd (removePlayerFromRoom roomId s (registry w))) =
         before ++ after).
Proof.
  intros w sid now roomId playerName gameType first second Hr Hg Hpl.
  split; [|split].
  - cbn [step handle].
    now rewrite (on_game_start_emits sid roomId playerName gameType w
                   first second [] Hr Hg Hpl).
  - intros p. apply addPlayerToRoom_appends.
  - intros s. apply removePlayerFromRoom_keeps_order.
Qed.

(** Ann joins before Bob; whether Ann or Bob starts the game, Ann is sent
    X and Bob is sent O, each on the group of their own socket. *)
Lemma C5_witness :
  (forall sid,
     snd (step (run init [connection "ann"; connection "bob";
                  received "ann" 1 (join_room (Some "R1") (Some "Ann"));
                  received "bob" 2 (join_room (Some "R1") (Some "Bob"))])
            (received sid 7
               (game_start (Some "R1") None (Some "tictactoe")))) =
     [emit (io_to "ann") "game_start"
           (game_start_data "tictactoe"
              [mkSymbolPlayer "Ann" "ann" "X"; mkSymbolPlayer "Bob" "bob" "O"]
              "X");
      emit (io_to "bob") "game_start"
           (game_start_data "tictactoe"
              [mkSymbolPlayer "Ann" "ann" "X"; mkSymbolPlayer "Bob" "bob" "O"]
              "O")]) /\
  receivers (run init [connection "ann"; connection "bob";
               received "ann" 1 (join_room (Some "R1") (Some "Ann"));
               received "bob" 2 (join_room (Some "R1") (Some "Bob"))])
            (io_to "ann") = ["ann"] /\
  receivers (run init [connection "ann"; connection "bob";
               received "ann" 1 (join_room (Some "R1") (Some "Ann"));
               received "bob" 2 (join_room (Some "R1") (Some "Bob"))])
            (io_to "bob") = ["bob"].
Proof.
  split; [|split; reflexivity].
  intros sid.
  rewrite (proj1 (C5_two_players_X_then_O
             (run init [connection "ann"; connection "bob";
                received "ann" 1 (join_room (Some "R1") (Some "Ann"));
                received "bob" 2 (join_room (Some "R1") (Some "Bob"))])
             sid 7 "R1" None "tictactoe"
             (mkPlayer "ann" "Ann" 1) (mkPlayer "bob" "Bob" 2)
             ltac:(discriminate) ltac:(discriminate) eq_refl)).
  reflexivity.
Defined.

(** C4 as worded fails in a room of three: the third player is in the
    room, and no emission of [game_start] is addressed to, or received by,
    that player. *)
Lemma C4_third_player_left_out :
  2 <= length (getRoomPlayers "R1" (registry three_in_R1)) /\
  In (mkPlayer "cy" "Cy" 3) (getRoomPlayers "R1" (registry three_in_R1)) /\
  (forall e,
     In e (snd (step three_in_R1
                  (received "ann" 7
                     (game_start (Some "R1") (Some "Ann") (Some "tictactoe"))))) ->
     ~ In "cy" (receivers three_in_R1 (target e))) /\
  ~ every_player_is_sent_game_start "R1" "tictactoe" three_in_R1
      (snd (step three_in_R1
              (received "ann" 7
                 (game_start (Some "R1") (Some "Ann") (Some "tictactoe"))))).
Proof.
  split; [vm_compute; lia|].
  split; [vm_compute; auto|].
  split.
  - intros e He. vm_compute in He.
    destruct He as [<-|[<-|[]]]; vm_compute; intros [H|[]]; discriminate H.
  - intros Hall.
    destruct (Hall (mkPlayer "cy" "Cy" 3)) as (symbol & _ & Hin).
    + vm_compute. auto.
    + vm_compute in Hin.
      destruct Hin as [H|[H|[]]]; discriminate H.
Qed.

(** C4, amended. In a room of two or more players, [game_start] with
    [roomId] and [gameType] present emits exactly two [game_start]
    payloads: one addressed to the connection id of the player at index 0
    with [playerSymbol] X, one addressed to the connection id of the player
    at index 1 with [playerSymbol] O.  Both carry the full roster, in which
    index 0 is labelled X and every other index O.  No payload is
    addressed to any other connection id: a player at a later index is
    addressed only if its connection id is that of the entry at index 0 or
    at index 1. *)
Theorem C4_game_start_first_two_players :
  forall (w : World) (sid : string) (now : Time)
         (roomId : string) (playerName : JsStr) (gameType : string)
         (p0 p1 : Player) (rest : list Player),
    roomId <> "" -> gameType <> "" ->
    getRoomPlayers roomId (registry w) = p0 :: p1 :: rest ->
    step w (received sid now
              (game_start (Some roomId) playerName (Some gameType))) =
    (w,
     [emit (io_to (socketId p0)) "game_start"
           (game_start_data gameType
              (mkSymbolPlayer (name p0) (socketId p0) "X"
               :: mkSymbolPlayer (name p1) (socketId p1) "O"
               :: map (fun p => mkSymbolPlayer (name p) (socketId p) "O") rest)
              "X");
      emit (io_to (socketId p1)) "game_start"
           (game_start_data gameType
              (mkSymbolPlayer (name p0) (socketId p0) "X"
               :: mkSymbolPlayer (name p1) (socketId p1) "O"
               :: map (fun p => mkSymbolPlayer (name p) (socketId p) "O") rest)
              "O")]) /\
    (forall e,
       In e (snd (step w (received sid now
                    (game_start (Some roomId) playerName (Some gameType))))) ->
       target e = io_to (socketId p0) \/ target e = io_to (socketId p1)) /\
    (forall p,
       In p rest ->
       socketId p <> socketId p0 -> socketId p <> socketId p1 ->
       forall e,
         In e (snd (step w (received sid now
                      (game_start (Some roomId) playerName (Some gameType))))) ->
         target e <> io_to (socketId p)).
Proof.
  intros w sid now roomId playerName gameType p0 p1 rest Hr Hg Hpl.
  cbn [step handle].
  rewrite (on_game_start_emits sid roomId playerName gameType w p0 p1 rest
             Hr Hg Hpl).
  cbn [snd]. split; [reflexivity|]. split.
  - intros e [<-|[<-|[]]]; cbn [target]; auto.
  - intros p _ H0 H1 e [<-|[<-|[]]]; cbn [target]; congruence.
Qed.

(** Ann, Bob and Cy: Ann and Bob are each sent a payload, Cy is not
    addressed. *)
Lemma C4_witness :
  step three_in_R1
       (received "bob" 7 (game_start (Some "R1") (Some "Bob") (Some "tictactoe")))
  = (three_in_R1,
     [emit (io_to "ann") "game_start"
           (game_start_data "tictactoe"
              [mkSymbolPlayer "Ann" "ann" "X"; mkSymbolPlayer "Bob" "bob" "O";
               mkSymbolPlayer "Cy" "cy" "O"]
              "X");
      emit (io_to "bob") "game_start"
           (game_start_data "tictactoe"
              [mkSymbolPlayer "Ann" "ann" "X"; mkSymbolPlayer "Bob" "bob" "O";
               mkSymbolPlayer "Cy" "cy" "O"]
              "O")]) /\
  (forall e,
     In e (snd (step three_in_R1
                  (received "bob" 7
                     (game_start (Some "R1") (Some "Bob") (Some "tictactoe"))))) ->
     target e <> io_to "cy").
Proof.
  destruct (C4_game_start_first_two_players three_in_R1 "bob" 7 "R1"
              (Some "Bob") "tictactoe"
              (mkPlayer "ann" "Ann" 1) (mkPlayer "bob" "Bob" 2)
              [mkPlayer "cy" "Cy" 3])
    as (Hstep & _ & Hrest); [discriminate | discriminate | reflexivity |].
  split; [exact Hstep|].
  apply (Hrest (mkPlayer "cy" "Cy" 3)); [now left | discriminate | discriminate].
Defined.

(* ------------------------------------------------------------------ *)
(** ** What [join_room] leaves behind in the registry *)

(** [join_room] touches no room but the one it joins: the block that
    leaves the previous room calls [socket.leave] and nothing else, so the
    entry of the connection in the previous room stays in the registry. *)
Lemma join_room_keeps_other_rooms sid now roomId playerName w k :
  k <> str roomId ->
  map_get k (registry (fst (on_join_room sid now roomId playerName w))) =
  map_get k (registry w).
Proof.
  intros Hk.
  destruct (truthy roomId) eqn:Hr; [destruct (truthy playerName) eqn:Hn|].
  - rewrite join_room_registry by assumption.
    destruct (map_get (str roomId) (registry w)) as [room|];
      rewrite ?map_get_set_ne by congruence; reflexivity.
  - unfold on_join_room. rewrite Hr, Hn. reflexivity.
  - unfold on_join_room. rewrite Hr. reflexivity.
Qed.

(** A successful [join_room] appends an entry for the sender to the room
    it names, whether or not the room already lists the sender. *)
Lemma join_room_appends_entry sid now roomId playerName w :
  truthy roomId = true -> truthy playerName = true ->
  getRoomPlayers (str roomId)
    (registry (fst (on_join_room sid now roomId playerName w))) =
  getRoomPlayers (str roomId) (registry w)
  ++ [mkPlayer sid (str playerName) now].
Proof.
  intros Hr Hn. rewrite join_room_registry by assumption.
  unfold getRoomPlayers.
  destruct (map_get (str roomId) (registry w)) as [room|];
    rewrite map_get_set_eq; reflexivity.
Qed.

(** C1, on the code. After s1 has joined A and then B, the group of the
    transport holds s1 in B only, but the registry lists s1 in the players
    of both A and B: the entry in A was not removed. *)
Theorem C1_previous_room_still_lists_the_connection :
  socket_rooms "s1" joined_A_then_B = ["s1"; "B"] /\
  room_sockets "A" joined_A_then_B = ["s1"] /\
  room_sockets "B" joined_A_then_B = ["s1"] /\
  rooms_of "s1" joined_A_then_B = ["A"; "B"].
Proof. repeat split. Qed.

(** C2, on the code. After s1 has joined A twice, the players of A hold
    two entries with the connection id s1. *)
Theorem C2_second_join_duplicates_the_entry :
  getRoomPlayers "A" (registry joined_A_twice) =
  [mkPlayer "s1" "Ann" 1; mkPlayer "s1" "Ann" 2] /\
  ~ NoDup (room_sockets "A" joined_A_twice).
Proof.
  split; [reflexivity|].
  intros Hnd. vm_compute in Hnd.
  inversion Hnd as [|x l Hnotin _]; subst. apply Hnotin. now left.
Qed.

(* ------------------------------------------------------------------ *)
(** ** Disconnecting *)

Lemma entries_findIndex_None sid l :
  findIndex (fun p => socketId p =? sid) l = None -> entries sid l = 0.
Proof.
  intros H. unfold entries.
  induction l as [|p l IH]; [reflexivity|]. simpl in *.
  destruct (socketId p =? sid); [discriminate|].
  destruct (findIndex _ l); [discriminate | auto].
Qed.

Lemma entries_splice1 sid l index :
  findIndex (fun p => socketId p =? sid) l = Some index ->
  S (entries sid (splice1 index l)) = entries sid l.
Proof.
  unfold entries, splice1. revert index.
  induction l as [|p l IH]; intros index; simpl; [discriminate|].
  destruct (socketId p =? sid) eqn:Ep.
  - intros [= <-]. reflexivity.
  - destruct (findIndex _ l) as [j|]; [|discriminate].
    intros [= <-]. cbn [firstn skipn app filter]. rewrite Ep.
    now apply IH.
Qed.

(** The [disconnect] handler takes one entry of the closed socket out of
    every room: a room that held none is left alone, a room that held
    several still holds the others. *)
Lemma disconnect_takes_one_entry sid w roomId :
  registry_ok (registry w) ->
  entries sid (getRoomPlayers roomId (registry (fst (on_disconnect sid w)))) =
  entries sid (getRoomPlayers roomId (registry w)) - 1.
Proof.
  intros Hok. unfold getRoomPlayers.
  rewrite (proj2 (on_disconnect_registry sid w Hok) roomId).
  destruct (map_get roomId (registry w)) as [room|]; [|reflexivity].
  unfold without_player.
  destruct (findIndex _ (players room)) as [index|] eqn:Hidx.
  - pose proof (entries_splice1 _ _ _ Hidx) as Hs.
    destruct (splice1 index (players room)) as [|p rest];
      cbn [players]; [cbn [entries filter length] in *|]; lia.
  - rewrite (entries_findIndex_None _ _ Hidx). reflexivity.
Qed.

(** Where no room lists the closed socket twice, no room lists it after
    [disconnect]. *)
Lemma disconnect_clears_single_entries sid w :
  registry_ok (registry w) ->
  (forall roomId, entries sid (getRoomPlayers roomId (registry w)) <= 1) ->
  forall roomId,
    ~ In sid (room_sockets roomId (fst (on_disconnect sid w))).
Proof.
  intros Hok Hone roomId Hin.
  pose proof (disconnect_takes_one_entry sid w roomId Hok) as Hcount.
  specialize (Hone roomId).
  unfold room_sockets in Hin. apply in_map_iff in Hin as (p & Hp & Hin).
  assert (Hf : In p (filter (fun q => socketId q =? sid)
              (getRoomPlayers roomId (registry (fst (on_disconnect sid w)))))).
  { apply filter_In. split; [assumption|]. now apply String.eqb_eq. }
  unfold entries in *.
  destruct (filter _ (getRoomPlayers roomId
                        (registry (fst (on_disconnect sid w)))));
    [contradiction | simpl in Hcount; lia].
Qed.

(** C9, on the code. s1 joined room A twice and is its only occupant.
    When s1 disconnects, one of its two entries is removed; the room is
    not deleted, it still lists s1, and [player_left] is broadcast with a
    roster that still holds s1. *)
Theorem C9_disconnect_leaves_an_entry_behind :
  room_sockets "A" joined_A_twice = ["s1"; "s1"] /\
  step joined_A_twice (received "s1" 9 disconnect) =
  (mkWorld [("A", mkGameRoom "A" [mkPlayer "s1" "Ann" 2] None 1)] [],
   [emit (io_to "A") "player_left"
         (roster_update "A" [mkPlayer "s1" "Ann" 2]
                        "Ann has left the room" 1)]) /\
  roomExists "A"
    (registry (fst (step joined_A_twice (received "s1" 9 disconnect)))) = true /\
  In "s1" (room_sockets "A"
    (fst (step joined_A_twice (received "s1" 9 disconnect)))).
Proof.
  split; [reflexivity|]. split; [reflexivity|]. split; [reflexivity|].
  vm_compute. now left.
Qed.

(* ------------------------------------------------------------------ *)
(** ** The registry on its own *)

Section MoreMapFacts.
Context {V : Type}.
Implicit Types (m : JsMap V) (k : string) (v : V).

Lemma map_set_set k v v' m : map_set k v (map_set k v' m) = map_set k v m.
Proof.
  induction m as [|[k0 v0] m IH]; simpl.
  - now rewrite String.eqb_refl.
  - destruct (k0 =? k) eqn:E; simpl.
    + now rewrite String.eqb_refl.
    + now rewrite E, IH.
Qed.

Lemma map_set_same k v m : map_get k m = Some v -> map_set k v m = m.
Proof.
  induction m as [|[k0 v0] m IH]; simpl; [discriminate|].
  destruct (String.eqb_spec k0 k) as [->|Hne].
  - now intros [= ->].
  - intros H. now rewrite IH.
Qed.

Lemma map_delete_absent k m : map_get k m = None -> map_delete k m = m.
Proof.
  induction m as [|[k0 v0] m IH]; simpl; [reflexivity|].
  destruct (k0 =? k); [discriminate|].
  intros H. now rewrite IH.
Qed.

Lemma map_set_length k v m :
  length (map_set k v m) = if map_has k m then length m else S (length m).
Proof.
  unfold map_has. induction m as [|[k0 v0] m IH]; simpl; [reflexivity|].
  destruct (k0 =? k); simpl; [reflexivity|].
  rewrite IH. destruct (map_get k m); reflexivity.
Qed.

Lemma map_delete_length k m :
  length (map_delete k m) = if map_has k m then pred (length m) else length m.
Proof.
  unfold map_has. induction m as [|[k0 v0] m IH]; simpl; [reflexivity|].
  destruct (k0 =? k); simpl; [reflexivity|].
  rewrite IH. destruct (map_get k m) eqn:E; [|reflexivity].
  apply map_get_In in E. destruct m; [contradiction | reflexivity].
Qed.

End MoreMapFacts.

Lemma findIndex_app_last {A : Type} (f : A -> bool) (l : list A) (x : A) :
  (forall y, In y l -> f y = false) -> f x = true ->
  findIndex f (l ++ [x]) = Some (length l).
Proof.
  intros Hl Hx. induction l as [|y l IH]; simpl.
  - now rewrite Hx.
  - rewrite (Hl y) by now left.
    rewrite IH; [reflexivity|]. intros z Hz. apply Hl. now right.
Qed.

Lemma splice1_app_last {A : Type} (l : list A) (x : A) :
  splice1 (length l) (l ++ [x]) = l.
Proof.
  unfold splice1. induction l as [|y l IH]; [reflexivity|].
  cbn [length app firstn skipn]. f_equal. exact IH.
Qed.

Lemma room_eta (room : GameRoom) :
  mkGameRoom (id room) (players room) (gameState room) (createdAt room) = room.
Proof. now destruct room. Qed.

(** X1. On a room that exists, [updateGameState] succeeds and
    [getGameState] then returns the state that was stored; the players of
    that room and every other room are as before.  On a room that does not
    exist it returns [false], changes nothing, and [getGameState] is
    [null]. *)
Theorem X1_game_state_round_trip :
  forall (rooms : Rooms) (roomId : string) (state : option string),
    (roomExists roomId rooms = true ->
     fst (updateGameState roomId state rooms) = true /\
     getGameState roomId (snd (updateGameState roomId state rooms)) = state /\
     getRoomPlayers roomId (snd (updateGameState roomId state rooms)) =
     getRoomPlayers roomId rooms /\
     forall k, k <> roomId ->
       getRoom k (snd (updateGameState roomId state rooms)) = getRoom k rooms) /\
    (roomExists roomId rooms = false ->
     updateGameState roomId state rooms = (false, rooms) /\
     getGameState roomId rooms = None).
Proof.
  intros rooms roomId state.
  unfold roomExists, map_has, updateGameState, getGameState, getRoomPlayers,
    getRoom.
  destruct (map_get roomId rooms) as [room|] eqn:Hget; split;
    try discriminate; intros _.
  - cbn [fst snd]. rewrite map_get_set_eq. cbn [gameState players].
    repeat split. intros k Hk. apply map_get_set_ne. congruence.
  - split; reflexivity.
Qed.

Lemma X1_witness :
  getGameState "R1"
    (snd (updateGameState "R1" (Some "X to move")
            (snd (createRoom 1 "R1" GameRoomService.empty))))
  = Some "X to move" /\
  updateGameState "R2" (Some "X to move")
    (snd (createRoom 1 "R1" GameRoomService.empty))
  = (false, snd (createRoom 1 "R1" GameRoomService.empty)).
Proof.
  split.
  - apply (proj1 (X1_game_state_round_trip
                    (snd (createRoom 1 "R1" GameRoomService.empty))
                    "R1" (Some "X to move"))).
    reflexivity.
  - apply (proj2 (X1_game_state_round_trip
                    (snd (createRoom 1 "R1" GameRoomService.empty))
                    "R2" (Some "X to move"))).
    reflexivity.
Defined.

(** X2. [createRoom] does not look whether the id is taken: on an id that
    is already in the registry it replaces the room by an empty one (no
    players, no game state) and the number of rooms stays the same; on a
    new id the number grows by one.  No other room is touched. *)
Theorem X2_createRoom_overwrites :
  forall (now : Time) (roomId : string) (rooms : Rooms),
    fst (createRoom now roomId rooms) = mkGameRoom roomId [] None now /\
    getRoom roomId (snd (createRoom now roomId rooms)) =
    Some (mkGameRoom roomId [] None now) /\
    getRoomPlayers roomId (snd (createRoom now roomId rooms)) = [] /\
    length (snd (createRoom now roomId rooms)) =
    (if roomExists roomId rooms then length rooms else S (length rooms)) /\
    (forall k, k <> roomId ->
       getRoom k (snd (createRoom now roomId rooms)) = getRoom k rooms).
Proof.
  intros now roomId rooms.
  unfold createRoom, getRoom, getRoomPlayers, roomExists. cbn [fst snd].
  rewrite map_get_set_eq, map_set_length.
  repeat split. intros k Hk. apply map_get_set_ne. congruence.
Qed.

Lemma X2_witness :
  getRoomPlayers "R1"
    (snd (createRoom 9 "R1"
       (snd (addPlayerToRoom "R1" (mkPlayer "s1" "Ann" 2)
          (snd (createRoom 1 "R1" GameRoomService.empty)))))) = [] /\
  getRoom "R0"
    (snd (createRoom 9 "R1" (snd (createRoom 1 "R0" GameRoomService.empty)))) =
  getRoom "R0" (snd (createRoom 1 "R0" GameRoomService.empty)).
Proof.
  split.
  - apply (X2_createRoom_overwrites 9 "R1").
  - apply (X2_createRoom_overwrites 9 "R1"). discriminate.
Defined.

(** X3. In a registry that holds each key once, [deleteRoom] returns
    whether the room was there; afterwards the room is absent, every other
    room is as before, and the number of rooms went down by one exactly
    when the result is [true].  Deleting an absent room changes nothing. *)
Theorem X3_deleteRoom_removes_the_room :
  forall (roomId : string) (rooms : Rooms),
    NoDup (map_keys rooms) ->
    fst (deleteRoom roomId rooms) = roomExists roomId rooms /\
    roomExists roomId (snd (deleteRoom roomId rooms)) = false /\
    (forall k, k <> roomId ->
       getRoom k (snd (deleteRoom roomId rooms)) = getRoom k rooms) /\
    length (snd (deleteRoom roomId rooms)) =
    (if roomExists roomId rooms then pred (length rooms) else length rooms) /\
    (roomExists roomId rooms = false -> snd (deleteRoom roomId rooms) = rooms).
Proof.
  intros roomId rooms Hnd.
  unfold deleteRoom, roomExists, getRoom. cbn [fst snd].
  split; [reflexivity|]. split.
  - unfold map_has. rewrite map_get_delete by assumption.
    now rewrite String.eqb_refl.
  - split.
    + intros k Hk. rewrite map_get_delete by assumption.
      destruct (String.eqb_spec roomId k); [congruence | reflexivity].
    + split; [apply map_delete_length|].
      unfold map_has. destruct (map_get roomId rooms) eqn:E; [discriminate|].
      intros _. now apply map_delete_absent.
Qed.

Lemma X3_witness :
  roomExists "R1"
    (snd (deleteRoom "R1" (snd (createRoom 1 "R1" GameRoomService.empty))))
  = false.
Proof.
  apply (X3_deleteRoom_removes_the_room "R1"
           (snd (createRoom 1 "R1" GameRoomService.empty))).
  repeat constructor. intros [].
Defined.

(** X4. Adding a player to a room that does not list that player's socket
    and then removing that socket gives back the registry as it was. *)
Theorem X4_add_then_remove_player :
  forall (rooms : Rooms) (roomId : string) (p : Player),
    roomExists roomId rooms = true ->
    ~ In (socketId p) (map socketId (getRoomPlayers roomId rooms)) ->
    removePlayerFromRoom roomId (socketId p)
      (snd (addPlayerToRoom roomId p rooms)) = (true, rooms).
Proof.
  intros rooms roomId p Hex Hnew.
  apply roomExists_get in Hex as [room Hget].
  unfold getRoomPlayers in Hnew. rewrite Hget in Hnew.
  unfold addPlayerToRoom, removePlayerFromRoom. rewrite Hget. cbn [snd].
  rewrite map_get_set_eq. cbn [players id gameState createdAt].
  rewrite (findIndex_app_last _ (players room) p).
  - rewrite splice1_app_last, map_set_set, room_eta.
    now rewrite (map_set_same _ _ _ Hget).
  - apply findIndex_None. now apply findIndex_absent.
  - apply String.eqb_refl.
Qed.

Lemma X4_witness :
  removePlayerFromRoom "R1" "s2"
    (snd (addPlayerToRoom "R1" (mkPlayer "s2" "Bob" 5)
            (registry (run init
               [connection "s1";
                received "s1" 1 (join_room (Some "R1") (Some "Ann"))])))) =
  (true,
   registry (run init
     [connection "s1";
      received "s1" 1 (join_room (Some "R1") (Some "Ann"))])).
Proof.
  apply (X4_add_then_remove_player
           (registry (run init
              [connection "s1";
               received "s1" 1 (join_room (Some "R1") (Some "Ann"))]))
           "R1" (mkPlayer "s2" "Bob" 5)).
  - reflexivity.
  - vm_compute. intros [H|[]]. discriminate H.
Defined.

(* ------------------------------------------------------------------ *)
(** ** Statistics and the room listing *)

Lemma fold_left_sum {A : Type} (f : A -> nat) (l : list A) (acc : nat) :
  fold_left (fun sum x => sum + f x) l acc = acc + list_sum (map f l).
Proof.
  revert acc. induction l as [|x l IH]; intros acc; simpl; [lia|].
  rewrite IH. lia.
Qed.

Lemma getRoomStats_totalPlayers rooms :
  totalPlayers (getRoomStats rooms) = total_entries rooms.
Proof.
  unfold getRoomStats, total_entries, getAllRooms. cbn [totalPlayers].
  rewrite fold_left_sum, map_map. reflexivity.
Qed.

Lemma list_sum_ge_length (l : list nat) :
  Forall (fun n => 1 <= n) l -> length l <= list_sum l.
Proof.
  induction 1 as [|n l Hn _ IH]; simpl; lia.
Qed.

Lemma registry_ok_values rooms :
  registry_ok rooms ->
  Forall (fun e => room_ok (fst e) (snd e)) rooms.
Proof.
  intros [Hnd Hall]. apply Forall_forall. intros [k room] Hin.
  apply Hall. now apply map_In_get.
Qed.

(** X5. [getRoomStats] and the body of [GET /api/rooms] describe the same
    rooms in the same order: both count as many rooms as [getAllRooms]
    returns, their entries carry the same id, player count and creation
    time, the count of a room is the number of players listed for it, and
    [totalPlayers] is the sum of these counts. *)
Theorem X5_stats_agree_with_room_listing :
  forall (rooms : Rooms),
    totalRooms (getRoomStats rooms) = length (getAllRooms rooms) /\
    api_totalRooms (get_api_rooms rooms) = totalRooms (getRoomStats rooms) /\
    map (fun r => (api_id r, api_playerCount r, api_createdAt r))
        (api_rooms (get_api_rooms rooms)) =
    map (fun s => (stat_id s, stat_players s, stat_createdAt s))
        (stat_rooms (getRoomStats rooms)) /\
    Forall (fun r => api_playerCount r = length (api_players r))
           (api_rooms (get_api_rooms rooms)) /\
    totalPlayers (getRoomStats rooms) =
    list_sum (map api_playerCount (api_rooms (get_api_rooms rooms))).
Proof.
  intros rooms. rewrite getRoomStats_totalPlayers.
  unfold getRoomStats, get_api_rooms, total_entries, getAllRooms, map_values.
  cbn [totalRooms api_totalRooms api_rooms stat_rooms].
  rewrite !length_map, !map_map. cbn [api_id api_playerCount api_createdAt
    stat_id stat_players stat_createdAt].
  repeat split.
  apply Forall_forall. intros r Hin.
  apply in_map_iff in Hin as (e & <- & _). cbn. now rewrite length_map.
Qed.

(** X6. After any sequence of handled events the statistics show no empty
    room and no room twice: every entry of [stats.rooms] counts at least
    one player and has a non-empty id, the ids are pairwise distinct, and
    [totalPlayers] is at least [totalRooms]. *)
Theorem X6_stats_of_a_reachable_registry :
  forall (tr : list Input),
    Forall (fun s => 1 <= stat_players s /\ stat_id s <> "")
           (stat_rooms (getRoomStats (registry (run init tr)))) /\
    NoDup (map stat_id (stat_rooms (getRoomStats (registry (run init tr))))) /\
    totalRooms (getRoomStats (registry (run init tr))) <=
    totalPlayers (getRoomStats (registry (run init tr))).
Proof.
  intros tr. pose proof (reachable_ok tr) as Hok.
  pose proof (registry_ok_values _ Hok) as Hvals.
  set (rooms := registry (run init tr)) in *.
  assert (Hids : map stat_id (stat_rooms (getRoomStats rooms)) = map_keys rooms).
  { unfold getRoomStats, map_values, map_keys. cbn [stat_rooms].
    rewrite !map_map. apply map_ext_in. intros e He.
    rewrite Forall_forall in Hvals. apply (Hvals e He). }
  split; [|split].
  - unfold getRoomStats, map_values. cbn [stat_rooms]. rewrite map_map.
    apply Forall_forall. intros s Hin.
    apply in_map_iff in Hin as (e & <- & He). cbn.
    rewrite Forall_forall in Hvals.
    destruct (Hvals e He) as (Hid & Hpl & Hne). split.
    + destruct (players (snd e)); [contradiction | simpl; lia].
    + now rewrite Hid.
  - rewrite Hids. apply Hok.
  - rewrite getRoomStats_totalPlayers.
    unfold getRoomStats, total_entries, getAllRooms, map_values.
    cbn [totalRooms]. rewrite map_map.
    rewrite <- (length_map (fun e => length (players (snd e))) rooms).
    apply list_sum_ge_length. apply Forall_forall. intros n Hin.
    apply in_map_iff in Hin as (e & <- & He).
    rewrite Forall_forall in Hvals.
    destruct (Hvals e He) as (_ & Hpl & _).
    destruct (players (snd e)); [contradiction | simpl; lia].
Qed.

(** X7. After any sequence of handled events [getAllRooms] and [getRoom]
    agree: a room is in the array exactly when [getRoom] finds it under
    its own id, and no two rooms of the array share an id. *)
Theorem X7_getAllRooms_agrees_with_getRoom :
  forall (tr : list Input) (room : GameRoom),
    (In room (getAllRooms (registry (run init tr))) <->
     getRoom (id room) (registry (run init tr)) = Some room) /\
    NoDup (map id (getAllRooms (registry (run init tr)))).
Proof.
  intros tr room. pose proof (reachable_ok tr) as Hok.
  pose proof (registry_ok_values _ Hok) as Hvals.
  set (rooms := registry (run init tr)) in *.
  rewrite Forall_forall in Hvals.
  unfold getAllRooms, getRoom, map_values. split; [split|].
  - intros Hin. apply in_map_iff in Hin as ([k r] & Hr & Hin).
    cbn in Hr. subst r.
    destruct (Hvals _ Hin) as (Hid & _). cbn in Hid. rewrite Hid.
    apply map_In_get; [apply Hok | assumption].
  - intros Hget. apply map_get_In in Hget.
    change room with (snd (id room, room)). now apply in_map.
  - replace (map id (map snd rooms)) with (map_keys rooms); [apply Hok|].
    unfold map_keys. rewrite map_map. apply map_ext_in.
    intros e He. symmetry. apply (Hvals e He).
Qed.

(* ------------------------------------------------------------------ *)
(** ** The groups of the transport *)

Lemma Forall_map_set {V : Type} (P : string * V -> Prop) k v (m : JsMap V) :
  Forall P m -> P (k, v) -> Forall P (map_set k v m).
Proof.
  intros Hm Hv. induction Hm as [|[k0 v0] m H0 Hm IH]; simpl.
  - now constructor.
  - destruct (k0 =? k); constructor; assumption.
Qed.

Lemma Forall_map_delete {V : Type} (P : string * V -> Prop) k (m : JsMap V) :
  Forall P m -> Forall P (map_delete k m).
Proof.
  intros Hm. induction Hm as [|[k0 v0] m H0 Hm IH]; simpl.
  - constructor.
  - destruct (k0 =? k); [assumption | now constructor].
Qed.

Lemma set_has_In x (s : JsSet) : set_has x s = true <-> In x s.
Proof.
  unfold set_has. rewrite existsb_exists. split.
  - intros (y & Hy & E). apply String.eqb_eq in E. now subst.
  - intros H. exists x. split; [assumption | apply String.eqb_refl].
Qed.

Lemma set_delete_In x y (s : JsSet) :
  In y (set_delete x s) <-> In y s /\ y <> x.
Proof.
  unfold set_delete. rewrite filter_In.
  destruct (String.eqb_spec y x); simpl; intuition congruence.
Qed.

Lemma set_add_In x y (s : JsSet) : In y (set_add x s) <-> y = x \/ In y s.
Proof.
  unfold set_add. destruct (set_has x s) eqn:E.
  - apply set_has_In in E. intuition congruence.
  - rewrite in_app_iff. simpl. intuition.
Qed.

Lemma set_add_NoDup x (s : JsSet) : NoDup s -> NoDup (set_add x s).
Proof.
  intros Hnd. unfold set_add. destruct (set_has x s) eqn:E; [assumption|].
  apply NoDup_app; [assumption | repeat constructor; intros [] |].
  intros y Hy [<-|[]]. apply set_has_In in Hy. congruence.
Qed.

Lemma set_add_length x (s : JsSet) : length (set_add x s) <= S (length s).
Proof.
  unfold set_add. destruct (set_has x s); [lia|].
  rewrite length_app. simpl. lia.
Qed.

Lemma set_delete_NoDup x (s : JsSet) : NoDup s -> NoDup (set_delete x s).
Proof. apply NoDup_filter. Qed.

Lemma set_delete_length x (s : JsSet) : length (set_delete x s) <= length s.
Proof. apply filter_length_le. Qed.

Lemma set_delete_length_In x (s : JsSet) :
  NoDup s -> In x s -> S (length (set_delete x s)) = length s.
Proof.
  unfold set_delete. induction s as [|y s IH]; intros Hnd Hin; [contradiction|].
  inversion Hnd as [|? ? Hnotin Hnd']; subst. simpl.
  destruct (String.eqb_spec y x) as [->|Hne]; simpl.
  - f_equal. clear IH Hin Hnd. induction s as [|z s IH]; [reflexivity|].
    inversion Hnd' as [|? ? Hz Hs]; subst. simpl.
    destruct (String.eqb_spec z x) as [->|_].
    + exfalso. apply Hnotin. now left.
    + simpl. f_equal. apply IH; [|assumption].
      intros H. apply Hnotin. now right.
  - f_equal. apply IH; [assumption|]. destruct Hin; [congruence | assumption].
Qed.

(** A set of two or more strings holds one that is not [sid]. *)
Lemma find_other_room sid (s : JsSet) :
  NoDup s -> 1 < length s ->
  exists room, find (fun r => negb (r =? sid)) s = Some room /\
               In room s /\ room <> sid.
Proof.
  intros Hnd Hlen.
  destruct (find (fun r => negb (r =? sid)) s) as [room|] eqn:Hf.
  - exists room. apply find_some in Hf as [Hin Hne].
    repeat split; [assumption|].
    apply negb_true_iff in Hne. now apply String.eqb_neq.
  - exfalso.
    assert (Hall : forall r, In r s -> r = sid).
    { intros r Hr. pose proof (find_none _ _ Hf r Hr) as E.
      apply negb_false_iff in E. now apply String.eqb_eq. }
    destruct s as [|a [|b s]]; simpl in Hlen; try lia.
    inversion Hnd as [|? ? Hnotin _]; subst. apply Hnotin.
    rewrite (Hall a), (Hall b); simpl; auto.
Qed.

Lemma socket_rooms_In sid s w :
  map_get sid (groups w) = Some s -> In (sid, s) (groups w).
Proof. apply map_get_In. Qed.

Lemma groups_ok_get g sid s :
  groups_ok g -> map_get sid g = Some s -> NoDup s /\ length s <= 2.
Proof.
  intros [_ Hall] Hget. apply map_get_In in Hget.
  rewrite Forall_forall in Hall. exact (Hall _ Hget).
Qed.

Lemma groups_ok_set g sid s :
  groups_ok g -> NoDup s -> length s <= 2 -> groups_ok (map_set sid s g).
Proof.
  intros [Hnd Hall] Hs Hlen. split.
  - now apply map_set_NoDup.
  - apply Forall_map_set; [assumption | split; assumption].
Qed.

Lemma groups_ok_delete g sid : groups_ok g -> groups_ok (map_delete sid g).
Proof.
  intros [Hnd Hall]. split.
  - now apply map_delete_NoDup.
  - now apply Forall_map_delete.
Qed.

Lemma socket_leave_groups_ok sid room w :
  groups_ok (groups w) -> groups_ok (groups (socket_leave sid room w)).
Proof.
  intros Hok. unfold socket_leave.
  destruct (map_get sid (groups w)) as [s|] eqn:Hget; [|assumption].
  destruct (groups_ok_get _ _ _ Hok Hget) as [Hnd Hlen]. cbn [groups].
  apply groups_ok_set; [assumption | now apply set_delete_NoDup |].
  pose proof (set_delete_length room s). lia.
Qed.

(** After the block that leaves the previous room the socket is in at most
    one group. *)
Lemma leave_previous_room_groups sid w :
  groups_ok (groups w) ->
  groups_ok (groups (leave_previous_room sid w)) /\
  length (socket_rooms sid (leave_previous_room sid w)) <= 1 /\
  NoDup (socket_rooms sid (leave_previous_room sid w)).
Proof.
  intros Hok. unfold leave_previous_room, socket_rooms.
  destruct (map_get sid (groups w)) as [s|] eqn:Hget.
  - destruct (groups_ok_get _ _ _ Hok Hget) as [Hnd Hlen].
    destruct (Nat.ltb_spec 1 (length s)) as [Hgt|Hle].
    + destruct (find_other_room sid s Hnd Hgt) as (room & Hf & Hin & _).
      rewrite Hf. unfold socket_leave. rewrite Hget. cbn [groups].
      rewrite map_get_set_eq.
      pose proof (set_delete_length_In room s Hnd Hin).
      split; [|split; [lia | now apply set_delete_NoDup]].
      apply groups_ok_set; [assumption | now apply set_delete_NoDup | lia].
    + rewrite Hget. auto.
  - simpl. rewrite Hget.
    split; [assumption | split; [simpl; lia | constructor]].
Qed.

Lemma on_join_room_groups sid now roomId playerName w :
  truthy roomId = true -> truthy playerName = true ->
  groups (fst (on_join_room sid now roomId playerName w)) =
  map_set sid
    (set_add (str roomId) (socket_rooms sid (leave_previous_room sid w)))
    (groups (leave_previous_room sid w)).
Proof.
  intros Hr Hn. unfold on_join_room. rewrite Hr, Hn. cbn [negb orb fst].
  unfold with_registry, socket_join. cbn [groups].
  destruct (negb _); reflexivity.
Qed.

Lemma disconnect_room_groups sid acc room :
  groups (fst (disconnect_room sid acc room)) = groups (fst acc).
Proof.
  destruct acc as [w out]. unfold disconnect_room, with_registry.
  destruct (find _ _); [|reflexivity].
  destruct (_ <? _)%nat; reflexivity.
Qed.

Lemma on_disconnect_groups sid w :
  groups (fst (on_disconnect sid w)) = map_delete sid (groups w).
Proof.
  unfold on_disconnect.
  enough (H : forall l acc,
             groups (fst (fold_left (disconnect_room sid) l acc)) =
             groups (fst acc)) by (rewrite H; reflexivity).
  induction l as [|room l IH]; intros acc; simpl; [reflexivity|].
  now rewrite IH, disconnect_room_groups.
Qed.

Lemma step_groups_ok w i :
  groups_ok (groups w) -> groups_ok (groups (fst (step w i))).
Proof.
  intros Hok. destruct i as [sid | sid now ev].
  - cbn. apply groups_ok_set; [assumption | repeat constructor; intros [] |].
    simpl. lia.
  - destruct ev; cbn [step handle].
    + destruct (truthy roomId) eqn:Hr; [destruct (truthy playerName) eqn:Hn|].
      * rewrite on_join_room_groups by assumption.
        destruct (leave_previous_room_groups sid w Hok) as (Hok1 & Hlen & Hnd).
        apply groups_ok_set; [assumption | now apply set_add_NoDup |].
        pose proof (set_add_length (str roomId)
                      (socket_rooms sid (leave_previous_room sid w))). lia.
      * unfold on_join_room. rewrite Hr, Hn. exact Hok.
      * unfold on_join_room. rewrite Hr. exact Hok.
    + unfold on_send_message.
      destruct (_ || _); [exact Hok|]. destruct (negb _); exact Hok.
    + unfold on_leave_room.
      destruct (negb (truthy roomId)); [exact Hok|].
      destruct (negb (roomExists _ _)); [exact Hok|].
      unfold with_registry. cbn [registry groups].
      destruct (_ <? _)%nat; cbn [fst groups];
        now apply socket_leave_groups_ok.
    + unfold on_game_start.
      destruct (_ || _); [exact Hok|]. destruct (_ <? _)%nat; [exact Hok|].
      destruct (nth_error _ 0); [|exact Hok].
      destruct (nth_error _ 1); exact Hok.
    + unfold on_game_move. destruct (_ || _); exact Hok.
    + unfold on_game_reset. destruct (negb _); exact Hok.
    + rewrite on_disconnect_groups. now apply groups_ok_delete.
    + exact Hok.
Qed.

Lemma reachable_groups_ok tr : groups_ok (groups (run init tr)).
Proof.
  enough (H : forall w, groups_ok (groups w) -> groups_ok (groups (run w tr))).
  { apply H. split; constructor. }
  induction tr as [|i tr IH]; intros w Hok; simpl; [exact Hok|].
  apply IH, step_groups_ok, Hok.
Qed.

(** X8. After any sequence of handled events, [socket.rooms] of every
    socket is a duplicate-free set of at most two groups, and a sequence
    that ends with a successful [join_room] leaves the sender in the group
    of the room it joined. *)
Theorem X8_socket_is_in_at_most_two_groups :
  forall (tr : list Input) (sid : string),
    NoDup (socket_rooms sid (run init tr)) /\
    length (socket_rooms sid (run init tr)) <= 2 /\
    (forall now roomId playerName,
       truthy roomId = true -> truthy playerName = true ->
       In (str roomId)
          (socket_rooms sid
             (fst (step (run init tr)
                     (received sid now (join_room roomId playerName)))))).
Proof.
  intros tr sid. pose proof (reachable_groups_ok tr) as Hok.
  set (w := run init tr) in *. unfold socket_rooms at 1 2.
  split; [|split].
  - destruct (map_get sid (groups w)) as [s|] eqn:Hget; [|constructor].
    apply (groups_ok_get _ _ _ Hok Hget).
  - destruct (map_get sid (groups w)) as [s|] eqn:Hget; [|simpl; lia].
    apply (groups_ok_get _ _ _ Hok Hget).
  - intros now roomId playerName Hr Hn. cbn [step handle].
    unfold socket_rooms at 1. rewrite on_join_room_groups by assumption.
    rewrite map_get_set_eq. apply set_add_In. now left.
Qed.

Lemma X8_witness :
  In "B"
     (socket_rooms "s1"
        (fst (step (run init [connection "s1";
                      received "s1" 1 (join_room (Some "A") (Some "Ann"))])
                (received "s1" 2 (join_room (Some "B") (Some "Ann")))))).
Proof.
  apply (proj2 (proj2 (X8_socket_is_in_at_most_two_groups
           [connection "s1";
            received "s1" 1 (join_room (Some "A") (Some "Ann"))] "s1"))
           2 (Some "B") (Some "Ann"));
    reflexivity.
Defined.

(* ------------------------------------------------------------------ *)
(** ** Leaving and disconnecting, in full *)

Lemma splice1_remove_first sid (l : list Player) index :
  findIndex (fun p => socketId p =? sid) l = Some index ->
  splice1 index l = remove_first sid l.
Proof.
  unfold splice1. revert index.
  induction l as [|p l IH]; intros index; simpl; [discriminate|].
  destruct (socketId p =? sid).
  - intros [= <-]. reflexivity.
  - destruct (findIndex _ l) as [j|]; [|discriminate].
    intros [= <-]. cbn [firstn skipn app]. f_equal. now apply IH.
Qed.

Lemma remove_first_absent sid (l : list Player) :
  findIndex (fun p => socketId p =? sid) l = None -> remove_first sid l = l.
Proof.
  induction l as [|p l IH]; simpl; [reflexivity|].
  destruct (socketId p =? sid); [discriminate|].
  destruct (findIndex _ l); [discriminate|].
  intros _. now rewrite IH.
Qed.

Lemma remove_first_keeps sid (l : list Player) p :
  In p l -> socketId p <> sid -> In p (remove_first sid l).
Proof.
  intros Hin Hne. induction l as [|q l IH]; simpl; [contradiction|].
  destruct (String.eqb_spec (socketId q) sid) as [E|_].
  - destruct Hin as [->|Hin]; [contradiction | assumption].
  - destruct Hin as [->|Hin]; [now left | right; auto].
Qed.

Lemma remove_first_incl sid (l : list Player) p :
  In p (remove_first sid l) -> In p l.
Proof.
  induction l as [|q l IH]; simpl; [tauto|].
  destruct (socketId q =? sid); simpl; intuition.
Qed.

Lemma without_player_players sid room :
  match without_player sid room with
  | Some room' => players room'
  | None => []
  end = remove_first sid (players room).
Proof.
  unfold without_player.
  destruct (findIndex _ (players room)) as [index|] eqn:Hidx.
  - rewrite <- (splice1_remove_first _ _ _ Hidx).
    destruct (splice1 index (players room)); reflexivity.
  - now rewrite remove_first_absent.
Qed.

(** The players of every room after [disconnect]. *)
Lemma on_disconnect_players sid w k :
  registry_ok (registry w) ->
  getRoomPlayers k (registry (fst (on_disconnect sid w))) =
  remove_first sid (getRoomPlayers k (registry w)).
Proof.
  intros Hok. unfold getRoomPlayers.
  rewrite (proj2 (on_disconnect_registry sid w Hok) k).
  destruct (map_get k (registry w)) as [room|]; [|reflexivity].
  apply without_player_players.
Qed.

(** The players of the room after a [leave_room] that passes both guards,
    and the rooms it does not touch. *)
Lemma on_leave_room_players sid roomId playerName w :
  registry_ok (registry w) ->
  truthy roomId = true ->
  roomExists (str roomId) (registry w) = true ->
  getRoomPlayers (str roomId)
    (registry (fst (on_leave_room sid roomId playerName w))) =
  remove_first sid (getRoomPlayers (str roomId) (registry w)) /\
  (roomExists (str roomId)
     (registry (fst (on_leave_room sid roomId playerName w))) = true <->
   remove_first sid (getRoomPlayers (str roomId) (registry w)) <> []) /\
  forall k, k <> str roomId ->
    map_get k (registry (fst (on_leave_room sid roomId playerName w))) =
    map_get k (registry w).
Proof.
  intros Hok Hr Hex. apply roomExists_get in Hex as [room Hget].
  destruct (proj2 Hok _ _ Hget) as (_ & Hpl & _).
  destruct Hok as [Hnd _].
  rewrite (leave_room_registry sid roomId playerName w room Hr Hget).
  unfold getRoomPlayers, roomExists, map_has. rewrite Hget.
  destruct (findIndex _ (players room)) as [index|] eqn:Hidx.
  - cbv zeta. rewrite <- (splice1_remove_first _ _ _ Hidx).
    destruct (splice1 index (players room)) as [|p rest].
    + rewrite map_get_delete, String.eqb_refl by now apply map_set_NoDup.
      split; [reflexivity|]. split; [split; [discriminate | congruence]|].
      intros k Hk. rewrite map_get_delete by now apply map_set_NoDup.
      destruct (String.eqb_spec (str roomId) k); [congruence|].
      apply map_get_set_ne. congruence.
    + rewrite map_get_set_eq. cbn [players].
      split; [reflexivity|]. split; [split; [discriminate | reflexivity]|].
      intros k Hk. apply map_get_set_ne. congruence.
  - rewrite (remove_first_absent _ _ Hidx).
    destruct (players room) as [|p rest] eqn:Hp; [contradiction|].
    rewrite Hget, Hp.
    split; [reflexivity|]. split; [split; [discriminate | reflexivity]|].
    reflexivity.
Qed.

Lemma on_leave_room_emits sid roomId playerName w room :
  truthy roomId = true ->
  map_get (str roomId) (registry w) = Some room ->
  players room <> [] ->
  snd (on_leave_room sid roomId playerName w) =
  match remove_first sid (players room) with
  | [] => []
  | remaining =>
      [emit (io_to (str roomId)) "player_left"
            (roster_update (str roomId) remaining
               (str playerName +s+ " has left the room") (length remaining))]
  end ++
  [emit (socket_emit sid) "leave_room_response"
        (status_success ("You have left room " +s+ str roomId))].
Proof.
  intros Hr Hget Hpl. unfold on_leave_room. rewrite Hr. cbn [negb].
  unfold roomExists, map_has. rewrite Hget. cbn [negb].
  unfold removePlayerFromRoom, getRoomPlayers, with_registry.
  cbn [registry]. rewrite ?socket_leave_registry, Hget.
  destruct (findIndex _ (players room)) as [index|] eqn:Hidx; cbn [snd].
  - rewrite map_get_set_eq. cbn [players].
    rewrite (splice1_remove_first _ _ _ Hidx).
    destruct (remove_first sid (players room)); reflexivity.
  - rewrite Hget, (remove_first_absent _ _ Hidx).
    destruct (players room); [contradiction | reflexivity].
Qed.

Lemma map_set_In_same {V : Type} k (v v' : V) (m : JsMap V) :
  NoDup (map_keys m) -> In (k, v') (map_set k v m) -> v' = v.
Proof.
  intros Hnd Hin.
  apply (map_In_get _ _ _ (map_set_NoDup k v m Hnd)) in Hin.
  rewrite map_get_set_eq in Hin. congruence.
Qed.

(** A socket that has left a group is not reached through it. *)
Lemma socket_leave_not_receiver sid room w :
  NoDup (map_keys (groups w)) ->
  ~ In sid (group_members room (socket_leave sid room w)).
Proof.
  intros Hnd Hin. unfold group_members in Hin.
  apply in_map_iff in Hin as ([s set] & Hs & Hin). cbn in Hs. subst s.
  apply filter_In in Hin as [Hin Hhas]. cbn in Hhas.
  apply set_has_In in Hhas. unfold socket_leave in Hin.
  destruct (map_get sid (groups w)) as [old|] eqn:Hget.
  - cbn [groups] in Hin. apply (map_set_In_same _ _ _ _ Hnd) in Hin. subst set.
    apply set_delete_In in Hhas as [_ Hne]. now apply Hne.
  - apply map_get_keys in Hget. apply Hget.
    change sid with (fst (sid, set)). now apply in_map.
Qed.

Lemma on_leave_room_groups sid roomId playerName w :
  truthy roomId = true ->
  roomExists (str roomId) (registry w) = true ->
  groups (fst (on_leave_room sid roomId playerName w)) =
  groups (socket_leave sid (str roomId) w).
Proof.
  intros Hr Hex. unfold on_leave_room. rewrite Hr, Hex. cbn [negb].
  unfold with_registry. cbn [registry groups].
  destruct (_ <? _)%nat; reflexivity.
Qed.

(** X9. In a world reached from the start, a [leave_room] for an existing
    room takes the first entry of the sender out of the room's players and
    keeps the others in order.  If players remain, they are broadcast a
    [player_left] with the remaining roster and its length, else the room
    is deleted and nothing is broadcast; either way the sender is answered
    with a success response, is no longer reached by broadcasts to the
    room, and no other room changes. *)
Theorem X9_leave_room_in_full :
  forall (tr : list Input) (sid : string) (now : Time)
         (roomId : string) (playerName : JsStr),
    roomExists roomId (registry (run init tr)) = true ->
    getRoomPlayers roomId
      (registry (fst (step (run init tr)
                   (received sid now (leave_room (Some roomId) playerName))))) =
    remove_first sid (getRoomPlayers roomId (registry (run init tr))) /\
    (roomExists roomId
       (registry (fst (step (run init tr)
                   (received sid now (leave_room (Some roomId) playerName)))))
     = true <->
     remove_first sid (getRoomPlayers roomId (registry (run init tr))) <> []) /\
    snd (step (run init tr)
           (received sid now (leave_room (Some roomId) playerName))) =
    match remove_first sid (getRoomPlayers roomId (registry (run init tr))) with
    | [] => []
    | remaining =>
        [emit (io_to roomId) "player_left"
              (roster_update roomId remaining
                 (str playerName +s+ " has left the room") (length remaining))]
    end ++
    [emit (socket_emit sid) "leave_room_response"
          (status_success ("You have left room " +s+ roomId))] /\
    ~ In sid (receivers
                (fst (step (run init tr)
                       (received sid now (leave_room (Some roomId) playerName))))
                (io_to roomId)) /\
    (forall k, k <> roomId ->
       getRoom k
         (registry (fst (step (run init tr)
                     (received sid now (leave_room (Some roomId) playerName))))) =
       getRoom k (registry (run init tr))).
Proof.
  intros tr sid now roomId playerName Hex.
  pose proof (reachable_ok tr) as Hok.
  pose proof (reachable_groups_ok tr) as [Hgnd _].
  set (w := run init tr) in *.
  pose proof Hex as Hex'. apply roomExists_get in Hex' as [room Hget].
  destruct (proj2 Hok _ _ Hget) as (_ & Hpl & Hne).
  pose proof (nonempty_truthy _ Hne) as Hr.
  destruct (on_leave_room_players sid (Some roomId) playerName w Hok Hr Hex)
    as (Hplayers & Hexists & Hothers).
  cbn [step handle]. cbn [str] in *.
  split; [exact Hplayers|]. split; [exact Hexists|]. split.
  - rewrite (on_leave_room_emits sid (Some roomId) playerName w room Hr Hget Hpl).
    unfold getRoomPlayers. now rewrite Hget.
  - split; [|exact Hothers].
    cbn [receivers]. unfold group_members.
    rewrite (on_leave_room_groups sid (Some roomId) playerName w Hr Hex).
    now apply socket_leave_not_receiver.
Qed.

(** Ann and Bob are in R1; Ann leaves: Bob is told, Ann is not. *)
Lemma X9_witness :
  snd (step (run init [connection "ann"; connection "bob";
               received "ann" 1 (join_room (Some "R1") (Some "Ann"));
               received "bob" 2 (join_room (Some "R1") (Some "Bob"))])
         (received "ann" 7 (leave_room (Some "R1") (Some "Ann")))) =
  [emit (io_to "R1") "player_left"
        (roster_update "R1" [mkPlayer "bob" "Bob" 2] "Ann has left the room" 1);
   emit (socket_emit "ann") "leave_room_response"
        (status_success "You have left room R1")] /\
  receivers
    (fst (step (run init [connection "ann"; connection "bob";
                  received "ann" 1 (join_room (Some "R1") (Some "Ann"));
                  received "bob" 2 (join_room (Some "R1") (Some "Bob"))])
            (received "ann" 7 (leave_room (Some "R1") (Some "Ann")))))
    (io_to "R1") = ["bob"].
Proof.
  split; [|reflexivity].
  apply (X9_leave_room_in_full
           [connection "ann"; connection "bob";
            received "ann" 1 (join_room (Some "R1") (Some "Ann"));
            received "bob" 2 (join_room (Some "R1") (Some "Bob"))]
           "ann" 7 "R1" (Some "Ann")).
  reflexivity.
Defined.

Lemma find_findIndex_Some sid (l : list Player) player :
  find (fun p => socketId p =? sid) l = Some player ->
  exists index, findIndex (fun p => socketId p =? sid) l = Some index.
Proof.
  intros Hf.
  destruct (findIndex (fun p => socketId p =? sid) l) as [index|] eqn:Hidx.
  - now exists index.
  - apply findIndex_find in Hidx. rewrite Hidx in Hf. discriminate.
Qed.

(** What one iteration of the [forEach] emits. *)
Lemma disconnect_room_emits sid w out room :
  map_get (id room) (registry w) = Some room ->
  snd (disconnect_room sid (w, out) room) =
  out ++ player_left_notice sid room.
Proof.
  intros Hget. unfold disconnect_room, player_left_notice.
  destruct (find _ (players room)) as [player|] eqn:Hfind.
  - destruct (find_findIndex_Some _ _ _ Hfind) as [index Hidx].
    unfold removePlayerFromRoom, getRoomPlayers, with_registry.
    cbn [registry]. rewrite Hget, Hidx. cbn [snd].
    rewrite map_get_set_eq. cbn [players].
    rewrite (splice1_remove_first _ _ _ Hidx).
    destruct (remove_first sid (players room));
      cbn [length Nat.ltb Nat.leb snd]; [now rewrite app_nil_r | reflexivity].
  - now rewrite app_nil_r.
Qed.

Lemma disconnect_fold_emits sid (l : Rooms) : forall w out,
  NoDup (map_keys (registry w)) ->
  NoDup (map_keys l) ->
  (forall k room,
     In (k, room) l -> id room = k /\ map_get k (registry w) = Some room) ->
  snd (fold_left (disconnect_room sid) (map_values l) (w, out)) =
  out ++ flat_map (player_left_notice sid) (map_values l).
Proof.
  induction l as [|[k0 room0] l IH]; intros w out Hnd Hl Hlive.
  - simpl. now rewrite app_nil_r.
  - cbn [map_values map map_keys snd fst fold_left flat_map] in *.
    inversion Hl as [|? ? Hnotin Hl']; subst.
    destruct (Hlive k0 room0 (or_introl eq_refl)) as [Hid Hget0].
    rewrite <- Hid in Hget0.
    destruct (disconnect_room_registry sid w out room0 Hnd Hget0)
      as (Hnd1 & _ & Hget1).
    pose proof (disconnect_room_emits sid w out room0 Hget0) as Hout.
    destruct (disconnect_room sid (w, out) room0) as [w1 out1].
    cbn [fst snd] in Hnd1, Hget1, Hout. subst out1.
    rewrite IH; [now rewrite app_assoc | assumption | assumption |].
    intros k room Hin.
    destruct (Hlive k room (or_intror Hin)) as [Hidk Hgetk].
    split; [assumption|]. rewrite Hget1.
    destruct (String.eqb_spec (id room0) k) as [E|_]; [|assumption].
    exfalso. apply Hnotin. rewrite <- Hid, E.
    change k with (fst (k, room)). now apply in_map.
Qed.

Lemma map_delete_In_key {V : Type} k v (m : JsMap V) :
  NoDup (map_keys m) -> ~ In (k, v) (map_delete k m).
Proof.
  intros Hnd Hin.
  apply (map_In_get _ _ _ (map_delete_NoDup k m Hnd)) in Hin.
  rewrite map_get_delete, String.eqb_refl in Hin by assumption.
  discriminate.
Qed.

(** X10. In a world reached from the start, [disconnect] takes the first
    entry of the closed socket out of the players of every room and keeps
    the other entries in order; a room stays in the registry exactly when
    entries remain.  The socket is taken out of every group, so that no
    broadcast reaches it afterwards. *)
Theorem X10_disconnect_registry_and_groups :
  forall (tr : list Input) (sid : string) (now : Time) (roomId : string),
    getRoomPlayers roomId
      (registry (fst (step (run init tr) (received sid now disconnect)))) =
    remove_first sid (getRoomPlayers roomId (registry (run init tr))) /\
    (roomExists roomId
       (registry (fst (step (run init tr) (received sid now disconnect))))
     = true <->
     remove_first sid (getRoomPlayers roomId (registry (run init tr))) <> []) /\
    groups (fst (step (run init tr) (received sid now disconnect))) =
    map_delete sid (groups (run init tr)) /\
    ~ In sid (receivers
                (fst (step (run init tr) (received sid now disconnect)))
                (io_to roomId)).
Proof.
  intros tr sid now roomId.
  pose proof (reachable_ok tr) as Hok.
  pose proof (reachable_groups_ok tr) as [Hgnd _].
  set (w := run init tr) in *. cbn [step handle].
  pose proof (on_disconnect_ok sid w Hok) as Hok'.
  pose proof (on_disconnect_players sid w roomId Hok) as Hpl.
  split; [exact Hpl|]. split; [|split].
  - rewrite <- Hpl. unfold getRoomPlayers. rewrite roomExists_get. split.
    + intros [room Hget]. rewrite Hget. apply (proj2 Hok' _ _ Hget).
    + destruct (map_get roomId (registry (fst (on_disconnect sid w))))
        as [room|]; [intros _; now exists room | congruence].
  - apply on_disconnect_groups.
  - cbn [receivers]. unfold group_members. rewrite on_disconnect_groups.
    intros Hin. apply in_map_iff in Hin as ([s set] & Hs & Hin).
    cbn in Hs. subst s. apply filter_In in Hin as [Hin _].
    now apply (map_delete_In_key sid set (groups w) Hgnd).
Qed.

(** X11. In a world reached from the start, what [disconnect] emits is,
    room by room in the order of the registry, one [player_left] to the
    group of each room that listed the closed socket and still lists
    somebody: it carries the remaining roster and its length and names the
    first entry the socket had in that room.  Nothing is sent for a room
    that did not list the socket or that is now empty, and nothing is sent
    to a single socket. *)
Theorem X11_disconnect_notifies_each_room_left :
  forall (tr : list Input) (sid : string) (now : Time),
    snd (step (run init tr) (received sid now disconnect)) =
    flat_map (player_left_notice sid) (getAllRooms (registry (run init tr))) /\
    (forall e,
       In e (snd (step (run init tr) (received sid now disconnect))) ->
       event e = "player_left" /\
       exists roomId,
         target e = io_to roomId /\
         In sid (room_sockets roomId (run init tr)) /\
         roomExists roomId
           (registry (fst (step (run init tr) (received sid now disconnect))))
         = true).
Proof.
  intros tr sid now. pose proof (reachable_ok tr) as Hok.
  set (w := run init tr) in *. cbn [step handle].
  assert (Hout : snd (on_disconnect sid w) =
                 flat_map (player_left_notice sid) (getAllRooms (registry w))).
  { unfold on_disconnect, getAllRooms. cbn [socket_close registry].
    rewrite (disconnect_fold_emits sid (registry w)); cbn [registry];
      [reflexivity | apply Hok | apply Hok |].
    intros k room Hin.
    pose proof (map_In_get _ _ _ (proj1 Hok) Hin) as Hget.
    split; [apply (proj2 Hok _ _ Hget) | assumption]. }
  split; [exact Hout|].
  intros e He. rewrite Hout in He.
  apply in_flat_map in He as (room & Hroom & He).
  unfold getAllRooms, map_values in Hroom.
  apply in_map_iff in Hroom as ([k r] & Hr & Hin). cbn in Hr. subst r.
  pose proof (map_In_get _ _ _ (proj1 Hok) Hin) as Hget.
  destruct (proj2 Hok _ _ Hget) as (Hid & _ & _).
  unfold player_left_notice in He.
  destruct (find _ (players room)) as [player|] eqn:Hfind; [|contradiction].
  destruct (remove_first sid (players room)) as [|q rest] eqn:Hrem;
    [contradiction|].
  destruct He as [<-|[]]. cbn [event target].
  split; [reflexivity|]. exists (id room). split; [reflexivity|].
  rewrite Hid. split.
  - unfold room_sockets, getRoomPlayers. rewrite Hget.
    apply find_some in Hfind as [Hp Hs]. apply String.eqb_eq in Hs.
    rewrite <- Hs. now apply in_map.
  - apply roomExists_get.
    destruct (map_get k (registry (fst (on_disconnect sid w)))) as [r'|] eqn:E.
    + now exists r'.
    + pose proof (on_disconnect_players sid w k Hok) as Hpl.
      unfold getRoomPlayers in Hpl. rewrite E, Hget, Hrem in Hpl.
      discriminate.
Qed.

(** Ann joins A, Bob joins A, Ann moves on to B and then disconnects: A,
    which still listed Ann, is told; B, now empty, is deleted silently. *)
Lemma X11_witness :
  snd (step (run init [connection "ann"; connection "bob";
               received "ann" 1 (join_room (Some "A") (Some "Ann"));
               received "bob" 2 (join_room (Some "A") (Some "Bob"));
               received "ann" 3 (join_room (Some "B") (Some "Ann"))])
         (received "ann" 9 disconnect)) =
  [emit (io_to "A") "player_left"
        (roster_update "A" [mkPlayer "bob" "Bob" 2] "Ann has left the room" 1)].
Proof.
  apply (proj1 (X11_disconnect_notifies_each_room_left
           [connection "ann"; connection "bob";
            received "ann" 1 (join_room (Some "A") (Some "Ann"));
            received "bob" 2 (join_room (Some "A") (Some "Bob"));
            received "ann" 3 (join_room (Some "B") (Some "Ann"))]
           "ann" 9)).
Defined.

(* ------------------------------------------------------------------ *)
(** ** Broadcasts reach listed players only *)

Lemma In_map_set_inv {V : Type} k v (e : string * V) (m : JsMap V) :
  In e (map_set k v m) -> e = (k, v) \/ In e m.
Proof.
  induction m as [|[k0 v0] m IH]; simpl.
  - intros [<-|[]]. now left.
  - destruct (k0 =? k); simpl.
    + intros [<-|H]; auto.
    + intros [<-|H]; auto. destruct (IH H); auto.
Qed.

Lemma In_map_delete_inv {V : Type} k (e : string * V) (m : JsMap V) :
  In e (map_delete k m) -> In e m.
Proof.
  induction m as [|[k0 v0] m IH]; simpl; [tauto|].
  destruct (k0 =? k); simpl; intuition.
Qed.

(** The entries of the groups after [socket.leave(room)]. *)
Lemma socket_leave_entries sid room w s set r :
  NoDup (map_keys (groups w)) ->
  In (s, set) (groups (socket_leave sid room w)) -> In r set ->
  (exists set0, In (s, set0) (groups w) /\ In r set0) /\
  (s = sid -> r <> room).
Proof.
  intros Hnd Hin Hr. unfold socket_leave in Hin.
  destruct (map_get sid (groups w)) as [old|] eqn:Hget.
  - cbn [groups] in Hin.
    destruct (String.eqb_spec s sid) as [->|Hne].
    + apply (map_set_In_same _ _ _ _ Hnd) in Hin. subst set.
      apply set_delete_In in Hr as [Hr Hne]. split; [|auto].
      exists old. split; [now apply map_get_In | assumption].
    + apply In_map_set_inv in Hin as [[= -> _]|Hin]; [contradiction|].
      split; [|contradiction]. now exists set.
  - split; [now exists set|]. intros ->.
    apply map_get_keys in Hget. exfalso. apply Hget.
    change sid with (fst (sid, set)). now apply in_map.
Qed.

Lemma leave_previous_room_entries sid w s set r :
  NoDup (map_keys (groups w)) ->
  In (s, set) (groups (leave_previous_room sid w)) -> In r set ->
  exists set0, In (s, set0) (groups w) /\ In r set0.
Proof.
  intros Hnd Hin Hr. unfold leave_previous_room in Hin.
  destruct (_ <? _)%nat; [|now exists set].
  destruct (find _ _) as [previousRoom|]; [|now exists set].
  apply (socket_leave_entries _ _ _ _ _ _ Hnd Hin Hr).
Qed.

Lemma room_sockets_remove_first sid s (l : list Player) :
  In s (map socketId l) -> s <> sid ->
  In s (map socketId (remove_first sid l)).
Proof.
  intros Hin Hne. apply in_map_iff in Hin as (p & <- & Hp).
  apply in_map. now apply remove_first_keeps.
Qed.

Lemma on_join_room_keeps_listed sid now roomId playerName w r s :
  In s (room_sockets r w) ->
  In s (room_sockets r (fst (on_join_room sid now roomId playerName w))).
Proof.
  intros Hin. unfold room_sockets in *.
  destruct (truthy roomId) eqn:Hr; [destruct (truthy playerName) eqn:Hn|].
  - destruct (String.eqb_spec r (str roomId)) as [->|Hne].
    + rewrite join_room_appends_entry by assumption.
      rewrite map_app. apply in_or_app. now left.
    + unfold getRoomPlayers in *.
      now rewrite join_room_keeps_other_rooms.
  - unfold on_join_room. rewrite Hr, Hn. exact Hin.
  - unfold on_join_room. rewrite Hr. exact Hin.
Qed.

(** The four events that only relay leave the world as it is. *)
Lemma relays_keep_world w sid now ev :
  match ev with
  | send_message _ _ _ | game_start _ _ _ | game_move _ _ _ _
  | game_reset _ _ => fst (step w (received sid now ev)) = w
  | _ => True
  end.
Proof.
  destruct ev; cbn [step handle]; try exact I.
  - unfold on_send_message.
    destruct (_ || _); [reflexivity|]. destruct (negb _); reflexivity.
  - unfold on_game_start.
    destruct (_ || _); [reflexivity|]. destruct (_ <? _)%nat; [reflexivity|].
    destruct (nth_error _ 0); [|reflexivity].
    destruct (nth_error _ 1); reflexivity.
  - unfold on_game_move. destruct (_ || _); reflexivity.
  - unfold on_game_reset. destruct (negb _); reflexivity.
Qed.

Lemma step_groups_listed w i :
  registry_ok (registry w) -> groups_ok (groups w) -> groups_listed w ->
  groups_listed (fst (step w i)).
Proof.
  intros Hok [Hgnd Hgall] Hlisted.
  destruct i as [sid | sid now ev].
  - intros s set r Hin Hr Hne. cbn in Hin.
    apply In_map_set_inv in Hin as [[= -> ->]|Hin].
    + destruct Hr as [->|[]]. contradiction.
    + exact (Hlisted s set r Hin Hr Hne).
  - destruct ev.
    + (* join_room *)
      cbn [step handle].
      destruct (truthy roomId) eqn:Hr; [destruct (truthy playerName) eqn:Hn|].
      * intros s set r Hin Hrs Hne.
        rewrite on_join_room_groups in Hin by assumption.
        apply In_map_set_inv in Hin as [[= -> ->]|Hin].
        -- apply set_add_In in Hrs as [->|Hrs].
           ++ unfold room_sockets.
              rewrite join_room_appends_entry by assumption.
              rewrite map_app. apply in_or_app. right. now left.
           ++ apply on_join_room_keeps_listed.
              unfold socket_rooms in Hrs.
              destruct (map_get sid (groups (leave_previous_room sid w)))
                as [set1|] eqn:Hget; [|contradiction].
              apply map_get_In in Hget.
              destruct (leave_previous_room_entries _ _ _ _ _ Hgnd Hget Hrs)
                as (set0 & Hin0 & Hr0).
              exact (Hlisted _ _ _ Hin0 Hr0 Hne).
        -- apply on_join_room_keeps_listed.
           destruct (leave_previous_room_entries _ _ _ _ _ Hgnd Hin Hrs)
             as (set0 & Hin0 & Hr0).
           exact (Hlisted _ _ _ Hin0 Hr0 Hne).
      * unfold on_join_room. rewrite Hr, Hn. exact Hlisted.
      * unfold on_join_room. rewrite Hr. exact Hlisted.
    + pose proof (relays_keep_world w sid now (send_message roomId playerName message)) as Hsame.
      cbn beta iota in Hsame. now rewrite Hsame.
    + (* leave_room *)
      cbn [step handle].
      destruct (truthy roomId) eqn:Hr;
        [destruct (roomExists (str roomId) (registry w)) eqn:Hex|].
      * intros s set r Hin Hrs Hne.
        rewrite on_leave_room_groups in Hin by assumption.
        destruct (socket_leave_entries _ _ _ _ _ _ Hgnd Hin Hrs)
          as ((set0 & Hin0 & Hr0) & Hown).
        pose proof (Hlisted _ _ _ Hin0 Hr0 Hne) as Hl.
        destruct (on_leave_room_players sid roomId playerName w Hok Hr Hex)
          as (Hplayers & _ & Hothers).
        unfold room_sockets in *.
        destruct (String.eqb_spec r (str roomId)) as [->|Hnr].
        -- rewrite Hplayers. apply room_sockets_remove_first; [assumption|].
           intros ->. now apply Hown.
        -- unfold getRoomPlayers in *. now rewrite Hothers.
      * unfold on_leave_room. rewrite Hr, Hex. exact Hlisted.
      * unfold on_leave_room. rewrite Hr. exact Hlisted.
    + pose proof (relays_keep_world w sid now (game_start roomId playerName gameType)) as Hsame.
      cbn beta iota in Hsame. now rewrite Hsame.
    + pose proof (relays_keep_world w sid now (game_move roomId playerName board playerSymbol)) as Hsame.
      cbn beta iota in Hsame. now rewrite Hsame.
    + pose proof (relays_keep_world w sid now (game_reset roomId playerName)) as Hsame.
      cbn beta iota in Hsame. now rewrite Hsame.
    + (* disconnect *)
      cbn [step handle]. intros s set r Hin Hrs Hne.
      rewrite on_disconnect_groups in Hin.
      assert (Hs : s <> sid).
      { intros ->. now apply (map_delete_In_key sid set (groups w) Hgnd). }
      apply In_map_delete_inv in Hin.
      pose proof (Hlisted _ _ _ Hin Hrs Hne) as Hl.
      unfold room_sockets in *. rewrite on_disconnect_players by assumption.
      now apply room_sockets_remove_first.
    + exact Hlisted.
Qed.

Lemma reachable_groups_listed tr : groups_listed (run init tr).
Proof.
  enough (H : forall w,
             registry_ok (registry w) -> groups_ok (groups w) ->
             groups_listed w -> groups_listed (run w tr)).
  { apply H; [apply registry_ok_empty | split; constructor |].
    intros s set r []. }
  induction tr as [|i tr IH]; intros w Hok Hg Hl; simpl; [exact Hl|].
  apply IH; [now apply step_ok | now apply step_groups_ok |
             now apply step_groups_listed].
Qed.

(** X12. After any sequence of handled events, a broadcast to a room,
    with or without its sender, reaches none but the connections listed in
    the players of that room; the one exception is the socket whose own id
    is the name of the group.  A broadcast that excludes its sender never
    reaches the sender. *)
Theorem X12_broadcast_reaches_listed_players_only :
  forall (tr : list Input) (room s sender : string),
    s <> room ->
    (In s (receivers (run init tr) (io_to room)) ->
     In s (room_sockets room (run init tr))) /\
    (In s (receivers (run init tr) (socket_to sender room)) ->
     In s (room_sockets room (run init tr)) /\ s <> sender).
Proof.
  intros tr room s sender Hne.
  pose proof (reachable_groups_listed tr) as Hl.
  set (w := run init tr) in *.
  assert (H : In s (group_members room w) -> In s (room_sockets room w)).
  { unfold group_members. intros Hin.
    apply in_map_iff in Hin as ([s' set] & Hs & Hin). cbn in Hs. subst s'.
    apply filter_In in Hin as [Hin Hhas]. cbn in Hhas.
    apply set_has_In in Hhas. apply (Hl s set room Hin Hhas). congruence. }
  split; [exact H|]. cbn [receivers]. intros Hin.
  apply filter_In in Hin as [Hin Hs]. split; [now apply H|].
  apply negb_true_iff in Hs. now apply String.eqb_neq.
Qed.

Lemma X12_witness :
  In "bob"
     (room_sockets "R1"
        (run init [connection "ann"; connection "bob";
           received "ann" 1 (join_room (Some "R1") (Some "Ann"));
           received "bob" 2 (join_room (Some "R1") (Some "Bob"))])).
Proof.
  apply (proj1 (X12_broadcast_reaches_listed_players_only
           [connection "ann"; connection "bob";
            received "ann" 1 (join_room (Some "R1") (Some "Ann"));
            received "bob" 2 (join_room (Some "R1") (Some "Bob"))]
           "R1" "bob" "ann" ltac:(discriminate))).
  vm_compute. auto.
Defined.

(* ------------------------------------------------------------------ *)
(** ** Relays and refusals *)

Lemma socket_to_excludes_sender sid room w :
  ~ In sid (receivers w (socket_to sid room)).
Proof.
  cbn [receivers]. intros Hin. apply filter_In in Hin as [_ H].
  now rewrite String.eqb_refl in H.
Qed.

Lemma socket_to_reaches_others sid room w s :
  s <> sid -> In s (receivers w (io_to room)) ->
  In s (receivers w (socket_to sid room)).
Proof.
  intros Hne Hin. cbn [receivers] in *. apply filter_In. split; [assumption|].
  apply negb_true_iff. now apply String.eqb_neq.
Qed.

(** X13. [game_move] with a room id and a board, and [game_reset] with a
    room id, emit one event each, addressed by [socket.to(roomId)]: every
    socket in the group of the room but the sender receives it, the sender
    never does.  Neither handler looks at the registry, so the relay
    happens whether or not the room exists or lists the sender, and the
    world is left as it was.  With the room id missing, or the board
    missing for [game_move], nothing is emitted. *)
Theorem X13_game_move_and_reset_relay_to_the_others :
  forall (w : World) (sid : string) (now : Time)
         (roomId playerName playerSymbol : JsStr) (board : option Board),
    (truthy roomId = true -> board <> None ->
     step w (received sid now (game_move roomId playerName board playerSymbol)) =
     (w, [emit (socket_to sid (str roomId)) "game_move"
               (game_move_data board playerSymbol playerName)])) /\
    (truthy roomId = true ->
     step w (received sid now (game_reset roomId playerName)) =
     (w, [emit (socket_to sid (str roomId)) "game_reset"
               (game_reset_data playerName)])) /\
    (truthy roomId = false \/ board = None ->
     step w (received sid now (game_move roomId playerName board playerSymbol)) =
     (w, [])) /\
    (truthy roomId = false ->
     step w (received sid now (game_reset roomId playerName)) = (w, [])) /\
    ~ In sid (receivers w (socket_to sid (str roomId))) /\
    (forall s, s <> sid -> In s (receivers w (io_to (str roomId))) ->
               In s (receivers w (socket_to sid (str roomId)))).
Proof.
  intros w sid now roomId playerName playerSymbol board.
  cbn [step handle]. unfold on_game_move, on_game_reset.
  split; [|split; [|split; [|split; [|split]]]].
  - intros Hr Hb. rewrite Hr. destruct board; [reflexivity | contradiction].
  - intros Hr. now rewrite Hr.
  - intros [Hr| ->]; [now rewrite Hr|].
    destruct (truthy roomId); reflexivity.
  - intros Hr. now rewrite Hr.
  - apply socket_to_excludes_sender.
  - intros s. apply socket_to_reaches_others.
Qed.

Lemma X13_witness :
  step (run init [connection "ann"; connection "bob";
          received "ann" 1 (join_room (Some "R1") (Some "Ann"));
          received "bob" 2 (join_room (Some "R1") (Some "Bob"))])
       (received "ann" 7
          (game_move (Some "R1") (Some "Ann") (Some [Some "X"; None])
                     (Some "X"))) =
  (run init [connection "ann"; connection "bob";
     received "ann" 1 (join_room (Some "R1") (Some "Ann"));
     received "bob" 2 (join_room (Some "R1") (Some "Bob"))],
   [emit (socket_to "ann" "R1") "game_move"
         (game_move_data (Some [Some "X"; None]) (Some "X") (Some "Ann"))]) /\
  step init (received "ann" 7 (game_reset (Some "nowhere") None)) =
  (init, [emit (socket_to "ann" "nowhere") "game_reset"
               (game_reset_data None)]) /\
  step init (received "ann" 7 (game_move (Some "R1") None None None)) =
  (init, []) /\
  step init (received "ann" 7 (game_reset None None)) = (init, []) /\
  In "bob"
     (receivers (run init [connection "ann"; connection "bob";
                   received "ann" 1 (join_room (Some "R1") (Some "Ann"));
                   received "bob" 2 (join_room (Some "R1") (Some "Bob"))])
        (socket_to "ann" "R1")).
Proof.
  split; [|split; [|split; [|split]]].
  - apply (proj1 (X13_game_move_and_reset_relay_to_the_others _ "ann" 7
             (Some "R1") (Some "Ann") (Some "X") (Some [Some "X"; None])));
      [reflexivity | discriminate].
  - apply (proj1 (proj2 (X13_game_move_and_reset_relay_to_the_others init
             "ann" 7 (Some "nowhere") None None None))).
    reflexivity.
  - apply (proj1 (proj2 (proj2 (X13_game_move_and_reset_relay_to_the_others
             init "ann" 7 (Some "R1") None None None)))).
    right. reflexivity.
  - apply (proj1 (proj2 (proj2 (proj2
             (X13_game_move_and_reset_relay_to_the_others
                init "ann" 7 None None None None))))).
    reflexivity.
  - apply (proj2 (proj2 (proj2 (proj2 (proj2
             (X13_game_move_and_reset_relay_to_the_others
                (run init [connection "ann"; connection "bob";
                   received "ann" 1 (join_room (Some "R1") (Some "Ann"));
                   received "bob" 2 (join_room (Some "R1") (Some "Bob"))])
                "ann" 7 (Some "R1") None None None)))))).
    + discriminate.
    + vm_compute. auto.
Defined.

(** X14. [send_message] and [leave_room] for a room id that is not in the
    registry are refused: the sender alone is sent an error response that
    names the room, no broadcast is made, and the world is left as it
    was. *)
Theorem X14_unknown_room_is_refused :
  forall (w : World) (sid : string) (now : Time)
         (roomId : string) (playerName : JsStr) (message : string),
    roomId <> "" ->
    roomExists roomId (registry w) = false ->
    (message <> "" ->
     step w (received sid now
               (send_message (Some roomId) playerName (Some message))) =
     (w, [emit (socket_emit sid) "message_response"
               (status_error ("Room " +s+ roomId +s+ " does not exist"))])) /\
    step w (received sid now (leave_room (Some roomId) playerName)) =
    (w, [emit (socket_emit sid) "leave_room_response"
              (status_error ("Room " +s+ roomId +s+ " does not exist"))]).
Proof.
  intros w sid now roomId playerName message Hr Hex.
  cbn [step handle]. unfold on_send_message, on_leave_room.
  rewrite (nonempty_truthy _ Hr). cbn [negb orb str]. rewrite Hex.
  split; [|reflexivity].
  intros Hm. now rewrite (nonempty_truthy _ Hm).
Qed.

(** Nobody ever made room R9. *)
Lemma X14_witness :
  step init (received "s1" 3 (leave_room (Some "R9") (Some "Ann"))) =
  (init, [emit (socket_emit "s1") "leave_room_response"
               (status_error "Room R9 does not exist")]) /\
  step init (received "s1" 3
               (send_message (Some "R9") (Some "Ann") (Some "hi"))) =
  (init, [emit (socket_emit "s1") "message_response"
               (status_error "Room R9 does not exist")]).
Proof.
  destruct (X14_unknown_room_is_refused init "s1" 3 "R9" (Some "Ann") "hi")
    as [Hsend Hleave]; [discriminate | reflexivity |].
  split; [exact Hleave | apply Hsend; discriminate].
Defined.

(* ------------------------------------------------------------------ *)
(** ** A successful join *)

Lemma on_join_room_emits sid now roomId playerName w :
  truthy roomId = true -> truthy playerName = true ->
  snd (on_join_room sid now roomId playerName w) =
  [emit (io_to (str roomId)) "player_joined"
        (roster_update (str roomId)
           (getRoomPlayers (str roomId)
              (registry (fst (on_join_room sid now roomId playerName w))))
           (str playerName +s+ " has joined the room")
           (length (getRoomPlayers (str roomId)
              (registry (fst (on_join_room sid now roomId playerName w))))));
   emit (socket_emit sid) "join_room_response"
        (join_success (str roomId)
           (getRoomPlayers (str roomId)
              (registry (fst (on_join_room sid now roomId playerName w))))
           ("You have joined room " +s+ str roomId))].
Proof.
  intros Hr Hn. unfold on_join_room. rewrite Hr, Hn. reflexivity.
Qed.

Lemma In_map_set_same {V : Type} k v (m : JsMap V) : In (k, v) (map_set k v m).
Proof.
  induction m as [|[k0 v0] m IH]; simpl; [now left|].
  destruct (k0 =? k); simpl; auto.
Qed.

Lemma In_map_set_other {V : Type} k v k' v' (m : JsMap V) :
  k' <> k -> In (k', v') m -> In (k', v') (map_set k v m).
Proof.
  intros Hne. induction m as [|[k0 v0] m IH]; simpl; [tauto|].
  destruct (String.eqb_spec k0 k) as [->|_]; simpl.
  - intros [[= <- _]|H]; [contradiction | auto].
  - intros [H|H]; auto.
Qed.

Lemma leave_previous_room_keeps_others sid w s set :
  s <> sid -> In (s, set) (groups w) ->
  In (s, set) (groups (leave_previous_room sid w)).
Proof.
  intros Hne Hin. unfold leave_previous_room.
  destruct (_ <? _)%nat; [|assumption].
  destruct (find _ _) as [previousRoom|]; [|assumption].
  unfold socket_leave. destruct (map_get sid (groups w)); [|assumption].
  cbn [groups]. now apply In_map_set_other.
Qed.

(** X15. A [join_room] with a room id and a player name appends one
    entry for the sender to the players of that room, creating the room
    first if it is absent, and touches no other room.  It broadcasts
    [player_joined] to the room with the new roster and its length, and
    answers the sender with the same roster.  The sender is in the group
    of the room by then, so it receives the broadcast too, as does every
    socket that was in the group before. *)
Theorem X15_join_room_in_full :
  forall (w : World) (sid : string) (now : Time) (roomId playerName : string),
    roomId <> "" -> playerName <> "" ->
    getRoomPlayers roomId
      (registry (fst (step w (received sid now
                        (join_room (Some roomId) (Some playerName)))))) =
    getRoomPlayers roomId (registry w) ++ [mkPlayer sid playerName now] /\
    snd (step w (received sid now
                   (join_room (Some roomId) (Some playerName)))) =
    [emit (io_to roomId) "player_joined"
          (roster_update roomId
             (getRoomPlayers roomId (registry w) ++ [mkPlayer sid playerName now])
             (playerName +s+ " has joined the room")
             (S (length (getRoomPlayers roomId (registry w)))));
     emit (socket_emit sid) "join_room_response"
          (join_success roomId
             (getRoomPlayers roomId (registry w) ++ [mkPlayer sid playerName now])
             ("You have joined room " +s+ roomId))] /\
    In sid (receivers
              (fst (step w (received sid now
                              (join_room (Some roomId) (Some playerName)))))
              (io_to roomId)) /\
    (forall s, In s (receivers w (io_to roomId)) ->
       In s (receivers
               (fst (step w (received sid now
                               (join_room (Some roomId) (Some playerName)))))
               (io_to roomId))) /\
    (forall k, k <> roomId ->
       getRoom k (registry (fst (step w (received sid now
                                   (join_room (Some roomId) (Some playerName))))))
       = getRoom k (registry w)).
Proof.
  intros w sid now roomId playerName Hrne Hnne.
  pose proof (nonempty_truthy _ Hrne) as Hr.
  pose proof (nonempty_truthy _ Hnne) as Hn.
  cbn [step handle].
  pose proof (join_room_appends_entry sid now _ _ w Hr Hn) as Hpl.
  cbn [str] in Hpl.
  assert (Hmine : In (sid,
                      set_add roomId
                        (socket_rooms sid (leave_previous_room sid w)))
                     (groups (fst (on_join_room sid now (Some roomId)
                                     (Some playerName) w)))).
  { rewrite on_join_room_groups by assumption. apply In_map_set_same. }
  split; [exact Hpl|]. split; [|split; [|split]].
  - rewrite on_join_room_emits by assumption. cbn [str].
    rewrite Hpl, length_app. cbn [length]. rewrite Nat.add_1_r. reflexivity.
  - cbn [receivers]. unfold group_members.
    change sid with (fst (sid, set_add roomId
                            (socket_rooms sid (leave_previous_room sid w)))).
    apply in_map. apply filter_In. split; [exact Hmine|].
    cbn [snd]. apply set_has_In, set_add_In. now left.
  - intros s. cbn [receivers]. unfold group_members. intros Hin.
    apply in_map_iff in Hin as ([s' set] & Hs & Hin). cbn in Hs. subst s'.
    apply filter_In in Hin as [Hin Hhas].
    destruct (String.eqb_spec s sid) as [->|Hne].
    + change sid with (fst (sid, set_add roomId
                              (socket_rooms sid (leave_previous_room sid w)))).
      apply in_map. apply filter_In. split; [exact Hmine|].
      cbn [snd]. apply set_has_In, set_add_In. now left.
    + change s with (fst (s, set)). apply in_map. apply filter_In.
      split; [|exact Hhas].
      rewrite on_join_room_groups by assumption.
      apply In_map_set_other; [assumption|].
      now apply leave_previous_room_keeps_others.
  - intros k Hk. unfold getRoom. now apply join_room_keeps_other_rooms.
Qed.

(** Ann makes room R1, Bob joins it: both are told of a roster of two, in
    the order they joined. *)
Lemma X15_witness :
  snd (step (run init [connection "ann"; connection "bob";
               received "ann" 1 (join_room (Some "R1") (Some "Ann"))])
         (received "bob" 2 (join_room (Some "R1") (Some "Bob")))) =
  [emit (io_to "R1") "player_joined"
        (roster_update "R1" [mkPlayer "ann" "Ann" 1; mkPlayer "bob" "Bob" 2]
                       "Bob has joined the room" 2);
   emit (socket_emit "bob") "join_room_response"
        (join_success "R1" [mkPlayer "ann" "Ann" 1; mkPlayer "bob" "Bob" 2]
                      "You have joined room R1")] /\
  receivers
    (fst (step (run init [connection "ann"; connection "bob";
                  received "ann" 1 (join_room (Some "R1") (Some "Ann"))])
            (received "bob" 2 (join_room (Some "R1") (Some "Bob")))))
    (io_to "R1") = ["ann"; "bob"].
Proof.
  split; [|reflexivity].
  apply (X15_join_room_in_full
           (run init [connection "ann"; connection "bob";
              received "ann" 1 (join_room (Some "R1") (Some "Ann"))])
           "bob" 2 "R1" "Bob"); discriminate.
Defined.

(* ------------------------------------------------------------------ *)
(** ** The statistics follow joins and leaves *)

Lemma total_entries_set_some k room room' (rooms : Rooms) :
  map_get k rooms = Some room ->
  total_entries (map_set k room' rooms) + length (players room) =
  total_entries rooms + length (players room').
Proof.
  unfold total_entries, getAllRooms, map_values.
  induction rooms as [|[k0 r0] rooms IH]; simpl; [discriminate|].
  destruct (k0 =? k).
  - intros [= ->]. simpl. lia.
  - intros H. specialize (IH H). simpl. lia.
Qed.

Lemma total_entries_set_none k room' (rooms : Rooms) :
  map_get k rooms = None ->
  total_entries (map_set k room' rooms) =
  total_entries rooms + length (players room').
Proof.
  unfold total_entries, getAllRooms, map_values.
  induction rooms as [|[k0 r0] rooms IH]; simpl; [lia|].
  destruct (k0 =? k); [discriminate|].
  intros H. specialize (IH H). simpl. lia.
Qed.

Lemma total_entries_delete k room (rooms : Rooms) :
  map_get k rooms = Some room ->
  total_entries (map_delete k rooms) + length (players room) =
  total_entries rooms.
Proof.
  unfold total_entries, getAllRooms, map_values.
  induction rooms as [|[k0 r0] rooms IH]; simpl; [discriminate|].
  destruct (k0 =? k).
  - intros [= ->]. lia.
  - intros H. specialize (IH H). simpl. lia.
Qed.

Lemma remove_first_length sid (l : list Player) :
  In sid (map socketId l) -> S (length (remove_first sid l)) = length l.
Proof.
  induction l as [|p l IH]; simpl; [contradiction|].
  destruct (String.eqb_spec (socketId p) sid) as [_|Hne]; [reflexivity|].
  intros [E|Hin]; [contradiction|]. simpl. now rewrite IH.
Qed.

Lemma remove_first_not_listed sid (l : list Player) :
  ~ In sid (map socketId l) -> remove_first sid l = l.
Proof. intros H. now apply remove_first_absent, findIndex_absent. Qed.

(** X16. Every successful [join_room] raises [totalPlayers] of
    [getRoomStats] by exactly one, also when the sender is already listed
    somewhere; [totalRooms] grows by one when the room is new and stays
    the same otherwise. *)
Theorem X16_join_room_counts_one_more_player :
  forall (w : World) (sid : string) (now : Time) (roomId playerName : string),
    roomId <> "" -> playerName <> "" ->
    totalPlayers (getRoomStats (registry (fst (step w (received sid now
                     (join_room (Some roomId) (Some playerName))))))) =
    S (totalPlayers (getRoomStats (registry w))) /\
    totalRooms (getRoomStats (registry (fst (step w (received sid now
                   (join_room (Some roomId) (Some playerName))))))) =
    (if roomExists roomId (registry w)
     then totalRooms (getRoomStats (registry w))
     else S (totalRooms (getRoomStats (registry w)))).
Proof.
  intros w sid now roomId playerName Hrne Hnne.
  pose proof (nonempty_truthy _ Hrne) as Hr.
  pose proof (nonempty_truthy _ Hnne) as Hn.
  cbn [step handle]. rewrite !getRoomStats_totalPlayers.
  rewrite (join_room_registry sid now _ _ w Hr Hn). cbn [str].
  unfold getRoomStats, roomExists, map_has. cbn [totalRooms].
  destruct (map_get roomId (registry w)) as [room|] eqn:Hget.
  - pose proof (total_entries_set_some roomId room
                  (mkGameRoom (id room)
                     (players room ++ [mkPlayer sid playerName now])
                     (gameState room) (createdAt room))
                  (registry w) Hget) as Ht.
    cbn [players] in Ht. rewrite length_app in Ht. cbn [length] in Ht.
    rewrite map_set_length. unfold map_has. rewrite Hget. split; [lia | reflexivity].
  - rewrite map_set_set, map_set_length. unfold map_has. rewrite Hget.
    rewrite (total_entries_set_none _ _ _ Hget). cbn [players length].
    split; [lia | reflexivity].
Qed.

Lemma X16_witness :
  totalPlayers (getRoomStats (registry (fst (step
     (run init [connection "s1";
        received "s1" 1 (join_room (Some "A") (Some "Ann"))])
     (received "s1" 2 (join_room (Some "A") (Some "Ann"))))))) = 2 /\
  totalRooms (getRoomStats (registry (fst (step
     (run init [connection "s1";
        received "s1" 1 (join_room (Some "A") (Some "Ann"))])
     (received "s1" 2 (join_room (Some "A") (Some "Ann"))))))) = 1.
Proof.
  destruct (X16_join_room_counts_one_more_player
              (run init [connection "s1";
                 received "s1" 1 (join_room (Some "A") (Some "Ann"))])
              "s1" 2 "A" "Ann") as [Hp Hr]; [discriminate | discriminate |].
  split; [exact Hp | exact Hr].
Defined.

(** X17. In a world reached from the start, a [leave_room] for an
    existing room lowers [totalPlayers] by one when the room lists the
    sender and leaves it as it is otherwise; [totalRooms] goes down by one
    exactly when the sender's was the only entry of the room. *)
Theorem X17_leave_room_counts_one_player_less :
  forall (tr : list Input) (sid : string) (now : Time)
         (roomId : string) (playerName : JsStr),
    roomExists roomId (registry (run init tr)) = true ->
    (In sid (room_sockets roomId (run init tr)) ->
     S (totalPlayers (getRoomStats (registry (fst (step (run init tr)
          (received sid now (leave_room (Some roomId) playerName))))))) =
     totalPlayers (getRoomStats (registry (run init tr)))) /\
    (~ In sid (room_sockets roomId (run init tr)) ->
     totalPlayers (getRoomStats (registry (fst (step (run init tr)
          (received sid now (leave_room (Some roomId) playerName)))))) =
     totalPlayers (getRoomStats (registry (run init tr)))) /\
    totalRooms (getRoomStats (registry (fst (step (run init tr)
        (received sid now (leave_room (Some roomId) playerName)))))) =
    (match remove_first sid (getRoomPlayers roomId (registry (run init tr))) with
     | [] => pred (totalRooms (getRoomStats (registry (run init tr))))
     | _ => totalRooms (getRoomStats (registry (run init tr)))
     end).
Proof.
  intros tr sid now roomId playerName Hex.
  pose proof (reachable_ok tr) as Hok.
  set (w := run init tr) in *.
  apply roomExists_get in Hex as [room Hget].
  destruct (proj2 Hok _ _ Hget) as (_ & Hpl & Hne).
  pose proof (nonempty_truthy _ Hne) as Hr.
  cbn [step handle]. rewrite !getRoomStats_totalPlayers.
  rewrite (leave_room_registry sid (Some roomId) playerName w room Hr Hget).
  cbn [str]. unfold room_sockets, getRoomPlayers. rewrite Hget.
  unfold getRoomStats. cbn [totalRooms].
  destruct (findIndex _ (players room)) as [index|] eqn:Hidx.
  - assert (Hin : In sid (map socketId (players room))).
    { destruct (in_dec string_dec sid (map socketId (players room)))
        as [H|H]; [assumption|].
      apply findIndex_absent in H. congruence. }
    pose proof (remove_first_length sid _ Hin) as Hlen.
    rewrite <- (splice1_remove_first _ _ _ Hidx) in *. cbv zeta.
    pose proof (total_entries_set_some roomId room
                  (mkGameRoom (id room) (splice1 index (players room))
                     (gameState room) (createdAt room))
                  (registry w) Hget) as Ht.
    cbn [players] in Ht.
    destruct (splice1 index (players room)) as [|p rest] eqn:Hs.
    + pose proof (total_entries_delete roomId _ _
                    (map_get_set_eq roomId
                       (mkGameRoom (id room) [] (gameState room)
                                   (createdAt room))
                       (registry w))) as Hd.
      cbn [players length] in *.
      rewrite map_delete_length, map_set_length. unfold map_has.
      rewrite map_get_set_eq, Hget.
      split; [intros _; lia | split; [contradiction | reflexivity]].
    + rewrite map_set_length. unfold map_has. rewrite Hget.
      cbn [length] in *.
      split; [intros _; lia | split; [contradiction | reflexivity]].
  - assert (Hout : ~ In sid (map socketId (players room))).
    { intros Hin. apply in_map_iff in Hin as (p & Hp & Hin).
      pose proof (proj1 (findIndex_None _ _) Hidx p Hin) as E.
      cbn in E. rewrite Hp, String.eqb_refl in E. discriminate. }
    rewrite (remove_first_absent _ _ Hidx).
    destruct (players room) as [|p rest] eqn:Hp; [contradiction|].
    split; [contradiction | split; reflexivity].
Qed.

Lemma X17_witness :
  S (totalPlayers (getRoomStats (registry (fst (step
       (run init [connection "ann"; connection "bob";
          received "ann" 1 (join_room (Some "R1") (Some "Ann"));
          received "bob" 2 (join_room (Some "R1") (Some "Bob"))])
       (received "ann" 7 (leave_room (Some "R1") (Some "Ann")))))))) = 2.
Proof.
  apply (proj1 (X17_leave_room_counts_one_player_less
           [connection "ann"; connection "bob";
            received "ann" 1 (join_room (Some "R1") (Some "Ann"));
            received "bob" 2 (join_room (Some "R1") (Some "Bob"))]
           "ann" 7 "R1" (Some "Ann") eq_refl)).
  vm_compute. auto.
Defined.

(* ------------------------------------------------------------------ *)
(** ** [socket.ts] against the earlier server *)

Lemma view_get k rooms :
  map_get k (view_rooms rooms) = option_map forget_id (map_get k rooms).
Proof.
  induction rooms as [|[k0 r0] rooms IH]; simpl; [reflexivity|].
  destruct (k0 =? k); [reflexivity | exact IH].
Qed.

Lemma view_has k rooms : map_has k (view_rooms rooms) = map_has k rooms.
Proof.
  unfold map_has. rewrite view_get. now destruct (map_get k rooms).
Qed.

Lemma view_set k room rooms :
  view_rooms (map_set k room rooms) =
  map_set k (forget_id room) (view_rooms rooms).
Proof.
  induction rooms as [|[k0 r0] rooms IH]; simpl; [reflexivity|].
  destruct (k0 =? k); simpl; [reflexivity | now rewrite IH].
Qed.

Lemma view_delete k rooms :
  view_rooms (map_delete k rooms) = map_delete k (view_rooms rooms).
Proof.
  induction rooms as [|[k0 r0] rooms IH]; simpl; [reflexivity|].
  destruct (k0 =? k); simpl; [reflexivity | now rewrite IH].
Qed.

Lemma legacy_leave_groups sid room w :
  Legacy.leave sid room (groups w) = groups (socket_leave sid room w).
Proof.
  unfold Legacy.leave, socket_leave.
  destruct (map_get sid (groups w)); reflexivity.
Qed.

Lemma legacy_leave_previous_groups sid w :
  Legacy.leave_previous sid (groups w) = groups (leave_previous_room sid w).
Proof.
  unfold Legacy.leave_previous, leave_previous_room.
  change (Legacy.rooms_of_socket sid (groups w)) with (socket_rooms sid w).
  destruct (_ <? _)%nat; [|reflexivity].
  destruct (find _ _); [apply legacy_leave_groups | reflexivity].
Qed.

Lemma world_eta w : mkWorld (registry w) (groups w) = w.
Proof. now destruct w. Qed.

Lemma pair_eta {A B : Type} (p : A * B) : p = (fst p, snd p).
Proof. now destruct p. Qed.

Lemma legacy_join_room_agrees sid now roomId playerName w :
  Legacy.on_join_room sid now roomId playerName (legacy_view w) =
  (legacy_view (fst (on_join_room sid now roomId playerName w)),
   snd (on_join_room sid now roomId playerName w)).
Proof.
  destruct (truthy roomId) eqn:Hr; [destruct (truthy playerName) eqn:Hn|].
  - rewrite on_join_room_emits by assumption.
    rewrite join_room_appends_entry by assumption.
    unfold legacy_view.
    rewrite join_room_registry, on_join_room_groups by assumption.
    unfold Legacy.on_join_room. rewrite Hr, Hn. cbn [negb orb].
    cbn [gameRooms legacy_groups]. rewrite view_has.
    rewrite legacy_leave_previous_groups.
    unfold Legacy.join.
    change (Legacy.rooms_of_socket sid (groups (leave_previous_room sid w)))
      with (socket_rooms sid (leave_previous_room sid w)).
    unfold getRoomPlayers, map_has.
    destruct (map_get (str roomId) (registry w)) as [room|] eqn:Hget;
      cbn [negb].
    + rewrite view_get, Hget. cbn [option_map forget_id legacy_players
        legacy_gameState legacy_createdAt].
      rewrite view_set. reflexivity.
    + rewrite map_get_set_eq. cbn [legacy_players legacy_gameState
        legacy_createdAt app].
      rewrite !view_set. reflexivity.
  - unfold Legacy.on_join_room, on_join_room. rewrite Hr, Hn. reflexivity.
  - unfold Legacy.on_join_room, on_join_room. rewrite Hr. reflexivity.
Qed.

Lemma legacy_send_message_agrees sid now roomId playerName message w :
  Legacy.on_send_message sid now roomId playerName message (legacy_view w) =
  (legacy_view (fst (on_send_message sid now roomId playerName message w)),
   snd (on_send_message sid now roomId playerName message w)).
Proof.
  unfold Legacy.on_send_message, on_send_message.
  destruct (_ || _); [reflexivity|].
  cbn [legacy_view gameRooms]. rewrite view_get.
  unfold roomExists, map_has.
  destruct (map_get (str roomId) (registry w)); reflexivity.
Qed.

Lemma legacy_leave_room_agrees sid roomId playerName w :
  Legacy.on_leave_room sid roomId playerName (legacy_view w) =
  (legacy_view (fst (on_leave_room sid roomId playerName w)),
   snd (on_leave_room sid roomId playerName w)).
Proof.
  unfold Legacy.on_leave_room, on_leave_room.
  destruct (truthy roomId) eqn:Hr; cbn [negb]; [|reflexivity].
  cbn [legacy_view gameRooms legacy_groups]. rewrite view_get.
  unfold roomExists, map_has.
  destruct (map_get (str roomId) (registry w)) as [room|] eqn:Hget;
    cbn [option_map negb]; [|reflexivity].
  rewrite legacy_leave_groups.
  unfold removePlayerFromRoom, getRoomPlayers, with_registry, deleteRoom.
  cbn [registry groups forget_id legacy_players legacy_gameState
       legacy_createdAt].
  rewrite ?socket_leave_registry, Hget.
  destruct (findIndex _ (players room)) as [index|]; cbn [snd].
  - rewrite map_get_set_eq. cbn [players].
    destruct (splice1 index (players room)) as [|p rest];
      cbn [length Nat.ltb Nat.leb fst snd app]; unfold legacy_view;
      cbn [registry groups]; rewrite ?view_delete, ?view_set; reflexivity.
  - rewrite Hget.
    destruct (players room) as [|p rest];
      cbn [length Nat.ltb Nat.leb fst snd app]; unfold legacy_view;
      cbn [registry groups]; rewrite ?view_delete; reflexivity.
Qed.

Lemma findIndex_nth_error {A : Type} (f : A -> bool) (l : list A) index :
  findIndex f l = Some index -> nth_error l index = find f l.
Proof.
  revert index. induction l as [|x l IH]; intros index; simpl; [discriminate|].
  destruct (f x).
  - now intros [= <-].
  - destruct (findIndex f l) as [j|]; [|discriminate].
    intros [= <-]. simpl. now apply IH.
Qed.

Lemma legacy_disconnect_entry_agrees sid w out room :
  map_get (id room) (registry w) = Some room ->
  Legacy.disconnect_entry sid (legacy_view w, out) (id room, forget_id room) =
  (legacy_view (fst (disconnect_room sid (w, out) room)),
   snd (disconnect_room sid (w, out) room)).
Proof.
  intros Hget. unfold Legacy.disconnect_entry, disconnect_room.
  cbn [forget_id legacy_players legacy_gameState legacy_createdAt].
  destruct (findIndex (fun p => socketId p =? sid) (players room))
    as [index|] eqn:Hidx.
  - rewrite (findIndex_nth_error _ _ _ Hidx).
    destruct (find _ (players room)) as [player|] eqn:Hfind.
    2:{ apply findIndex_find in Hfind. congruence. }
    unfold removePlayerFromRoom, getRoomPlayers, with_registry, deleteRoom.
    cbn [registry]. rewrite Hget, Hidx. cbn [snd].
    rewrite map_get_set_eq. cbn [players].
    destruct (splice1 index (players room)) as [|p rest];
      cbn [length Nat.ltb Nat.leb fst snd]; unfold legacy_view;
      cbn [registry groups gameRooms legacy_groups];
      rewrite ?view_delete, ?view_set; reflexivity.
  - apply findIndex_find in Hidx. rewrite Hidx. reflexivity.
Qed.

Lemma legacy_disconnect_fold_agrees sid (l : Rooms) : forall w out,
  NoDup (map_keys (registry w)) ->
  NoDup (map_keys l) ->
  (forall k room,
     In (k, room) l -> id room = k /\ map_get k (registry w) = Some room) ->
  fold_left (Legacy.disconnect_entry sid) (view_rooms l) (legacy_view w, out) =
  (legacy_view (fst (fold_left (disconnect_room sid) (map_values l) (w, out))),
   snd (fold_left (disconnect_room sid) (map_values l) (w, out))).
Proof.
  induction l as [|[k0 room0] l IH]; intros w out Hnd Hl Hlive.
  - reflexivity.
  - cbn [view_rooms map_values map map_keys snd fst fold_left] in *.
    inversion Hl as [|? ? Hnotin Hl']; subst.
    destruct (Hlive k0 room0 (or_introl eq_refl)) as [Hid Hget0].
    rewrite <- Hid in Hget0.
    destruct (disconnect_room_registry sid w out room0 Hnd Hget0)
      as (Hnd1 & _ & Hget1).
    pose proof (legacy_disconnect_entry_agrees sid w out room0 Hget0) as Hstep.
    rewrite Hid in Hstep. rewrite Hstep.
    destruct (disconnect_room sid (w, out) room0) as [w1 out1].
    cbn [fst snd] in *.
    apply IH; [assumption | assumption |].
    intros k room Hin.
    destruct (Hlive k room (or_intror Hin)) as [Hidk Hgetk].
    split; [assumption|]. rewrite Hget1.
    destruct (String.eqb_spec (id room0) k) as [E|_]; [|assumption].
    exfalso. apply Hnotin. rewrite <- Hid, E.
    change k with (fst (k, room)). now apply in_map.
Qed.

Lemma legacy_disconnect_agrees sid w :
  registry_ok (registry w) ->
  Legacy.on_disconnect sid (legacy_view w) =
  (legacy_view (fst (on_disconnect sid w)), snd (on_disconnect sid w)).
Proof.
  intros [Hnd Hall]. unfold Legacy.on_disconnect, on_disconnect, getAllRooms.
  cbn [legacy_view gameRooms legacy_groups socket_close registry].
  change (mkLegacyWorld (view_rooms (registry w)) (map_delete sid (groups w)))
    with (legacy_view (mkWorld (registry w) (map_delete sid (groups w)))).
  apply legacy_disconnect_fold_agrees; cbn [registry]; try assumption.
  intros k room Hin. pose proof (map_In_get _ _ _ Hnd Hin) as Hget.
  split; [apply (Hall _ _ Hget) | assumption].
Qed.

Lemma legacy_step_agrees w i :
  registry_ok (registry w) -> handled_by_both i = true ->
  legacy_step (legacy_view w) i = (legacy_view (fst (step w i)), snd (step w i)).
Proof.
  intros Hok Hboth. destruct i as [sid | sid now ev].
  - reflexivity.
  - destruct ev; try discriminate Hboth; cbn [legacy_step legacy_handle step handle].
    + apply legacy_join_room_agrees.
    + apply legacy_send_message_agrees.
    + apply legacy_leave_room_agrees.
    + now apply legacy_disconnect_agrees.
    + match goal with n : EventName |- _ => destruct n end;
        try discriminate Hboth; reflexivity.
Qed.

Lemma legacy_step_world w i :
  registry_ok (registry w) ->
  fst (legacy_step (legacy_view w) i) = legacy_view (fst (step w i)).
Proof.
  intros Hok. destruct (handled_by_both i) eqn:Hboth.
  - now rewrite legacy_step_agrees.
  - destruct i as [sid | sid now ev]; [discriminate|].
    destruct ev; try discriminate Hboth; cbn [legacy_step legacy_handle fst].
    + now rewrite (relays_keep_world w sid now
                     (game_start roomId playerName gameType)).
    + now rewrite (relays_keep_world w sid now
                     (game_move roomId playerName board playerSymbol)).
    + now rewrite (relays_keep_world w sid now (game_reset roomId playerName)).
    + match goal with n : EventName |- _ => destruct n end;
        try discriminate Hboth; reflexivity.
Qed.

(** X18. The handlers of [socket.ts], which go through
    [GameRoomService], and the earlier server, which works on its
    [gameRooms] map directly, agree.  Started together and fed the same
    events they hold the same rooms, players and groups after every event
    (the earlier rooms have no [id] field), and for [connection],
    [join_room], [send_message], [leave_room] and [disconnect] they emit
    the same events to the same targets in the same order. *)
Theorem X18_socket_ts_agrees_with_the_earlier_server :
  forall (tr : list Input),
    legacy_run (legacy_view init) tr = legacy_view (run init tr) /\
    (forall i, handled_by_both i = true ->
       snd (legacy_step (legacy_run (legacy_view init) tr) i) =
       snd (step (run init tr) i)).
Proof.
  intros tr.
  assert (Hrun : forall w, registry_ok (registry w) ->
            legacy_run (legacy_view w) tr = legacy_view (run w tr)).
  { induction tr as [|i tr IH]; intros w Hok; simpl; [reflexivity|].
    rewrite legacy_step_world by assumption. apply IH. now apply step_ok. }
  split; [apply Hrun, registry_ok_empty|].
  intros i Hboth. rewrite (Hrun init registry_ok_empty).
  rewrite legacy_step_agrees; [reflexivity | apply reachable_ok | assumption].
Qed.

Lemma X18_witness :
  snd (legacy_step
         (legacy_run (legacy_view init)
            [connection "ann"; connection "bob";
             received "ann" 1 (join_room (Some "R1") (Some "Ann"));
             received "bob" 2 (join_room (Some "R1") (Some "Bob"))])
         (received "ann" 9 disconnect)) =
  [emit (io_to "R1") "player_left"
        (roster_update "R1" [mkPlayer "bob" "Bob" 2] "Ann has left the room" 1)].
Proof.
  rewrite (proj2 (X18_socket_ts_agrees_with_the_earlier_server
             [connection "ann"; connection "bob";
              received "ann" 1 (join_room (Some "R1") (Some "Ann"));
              received "bob" 2 (join_room (Some "R1") (Some "Bob"))])
             (received "ann" 9 disconnect) eq_refl).
  reflexivity.
Defined.
